(** * Signals and systems simulator: the DSP core, embedded and verified

    A shallow embedding of [core/signal_generator.py],
    [core/system_analyzer.py] and [core/transform.py].

    Numbers.  An array is a one-dimensional array of doubles, modelled
    as a list.  A finite IEEE double is a rational and, outside the
    elementary functions, the source only adds, multiplies, divides and
    compares them, so samples and coefficients are modelled as [Q] with
    exact arithmetic: rounding, overflow, NaN and infinities inside
    sample arrays are outside the model, and statements about values
    are up to [==] on [Q].  Where a claim depends on leaving the finite
    numbers (a negative power of zero, a zero denominator, the cleaning
    of a frequency response) the embedding says so with an [option] or
    with the [float] type of the frequency response.  The Z-transform
    evaluator is embedded once for each type of number that its argument
    [z] may be: complex, float and int.  The Fourier transform needs the
    complex exponential and is modelled over [R].

    Libraries.  numpy and scipy are not part of the repository.  Array
    primitives whose meaning is fixed by their documentation
    ([linspace], [argmin], [trim_zeros], [clip], [lfilter], the DFT) are
    written out; elementary functions and filter design routines
    ([sin], [exp], [square], [butter], [freqz], [dimpulse], ...) are
    taken as parameters. *)

From Stdlib Require Import QArith Qabs Qround ZArith String List Lia Lqa Bool.
From Stdlib Require Reals Lra.
Import ListNotations.

(** ** Python and numpy primitives *)

Module Py.
Local Open Scope Q_scope.

(** One constructor per place where an exception is raised. *)
Inductive exn : Type :=
| UnknownSignalType (signal_type : string)
    (* ValueError(f"Unknown signal type: {signal_type}") *)
| InvalidCustomFunction (e : exn)
    (* ValueError(f"Invalid custom function: {e}") *)
| UnknownSystemType (system_type : string)
    (* ValueError(f"Unknown system type: {system_type}") *)
| InvalidSystemCoefficients (e : exn)
    (* ValueError(f"Invalid system coefficients: {e}") *)
| EmptyCoefficientArray
    (* ValueError("Empty coefficient array") *)
| ZeroLeadingDenominator
    (* ValueError("Leading denominator coefficient cannot be zero") *)
| ZeroDivisionError
    (* division of Python numbers by zero *)
| IndexError
    (* index out of bounds in an array access *)
| LibraryError (msg : string).
    (* raised inside numpy or scipy *)

Inductive result (A : Type) : Type :=
| Ok (a : A)
| Raise (e : exn).
Arguments Ok {A} a.
Arguments Raise {A} e.

Definition bind {A B : Type} (r : result A) (k : A -> result B) : result B :=
  match r with
  | Ok a => k a
  | Raise e => Raise e
  end.

(** [try: body  except Exception as e: handler e] *)
Definition try_except {A : Type} (body : result A) (handler : exn -> result A)
  : result A :=
  match body with
  | Ok a => Ok a
  | Raise e => handler e
  end.

(** [kwargs.get(key, default)] *)
Definition get {A : Type} (entry : option A) (default : A) : A :=
  match entry with
  | Some v => v
  | None => default
  end.

(** [int(x)] on a float: truncation towards zero. *)
Definition int (x : Q) : Z := Z.quot (Qnum x) (Zpos (Qden x)).

Definition Qltb (x y : Q) : bool := negb (Qle_bool y x).

(** [max(x, y)] and [min(x, y)] of Python: the first argument wins ties. *)
Definition max (x y : Q) : Q := if Qltb x y then y else x.
Definition min (x y : Q) : Q := if Qltb y x then y else x.

(** [np.clip(x, lo, hi)] *)
Definition clip (x lo hi : Q) : Q := min (max x lo) hi.

Definition of_nat (i : nat) : Q := inject_Z (Z.of_nat i).

(** [np.linspace(start, stop, num, endpoint)]: [num] samples with step
    [(stop - start) / div], where [div] is [num - 1] with the end point
    and [num] without; a negative [num] is refused; with the end point
    and more than one sample the last sample is [stop] itself. *)
Definition linspace (start stop : Q) (num : Z) (endpoint : bool)
  : result (list Q) :=
  if (num <? 0)%Z then
    Raise (LibraryError "Number of samples must be non-negative")
  else
    let div := if endpoint then (num - 1)%Z else num in
    let delta := stop - start in
    let n := Z.to_nat num in
    Ok (map (fun i =>
               if endpoint && (1 <? n)%nat && (i =? n - 1)%nat then stop
               else if (0 <? div)%Z
                    then of_nat i * (delta / inject_Z div) + start
                    else of_nat i * delta + start)
            (seq 0 n)).

(** [np.zeros_like(t)], [np.zeros(N)], [np.ones(N)], [np.full_like(t, v)] *)
Definition zeros_like {A : Type} (t : list A) : list Q := map (fun _ => 0) t.
Definition zeros (n : nat) : list Q := repeat 0 n.
Definition ones (n : nat) : list Q := repeat 1 n.
Definition full_like {A : Type} (t : list A) (v : Q) : list Q :=
  map (fun _ => v) t.

(** [x[i] = v]: in range it replaces the entry, out of range it raises. *)
Fixpoint replace_nth (x : list Q) (i : nat) (v : Q) : list Q :=
  match x, i with
  | [], _ => []
  | _ :: x', O => v :: x'
  | y :: x', S i' => y :: replace_nth x' i' v
  end.

Definition setitem (x : list Q) (i : nat) (v : Q) : result (list Q) :=
  if (i <? length x)%nat then Ok (replace_nth x i v) else Raise IndexError.

(** [np.argmin(x)]: the first index of a least entry; an empty array is
    refused. *)
Fixpoint argmin_from (x : list Q) (i best_i : nat) (best : Q) : nat :=
  match x with
  | [] => best_i
  | y :: x' =>
      if Qltb y best then argmin_from x' (S i) i y
      else argmin_from x' (S i) best_i best
  end.

Definition argmin (x : list Q) : result nat :=
  match x with
  | [] => Raise (LibraryError "attempt to get argmin of an empty sequence")
  | y :: x' => Ok (argmin_from x' 1 0 y)
  end.

(** [np.trim_zeros(x, 'f')]: drop the leading entries equal to zero. *)
Fixpoint trim_zeros_f (x : list Q) : list Q :=
  match x with
  | [] => []
  | y :: x' => if Qeq_bool y 0 then trim_zeros_f x' else x
  end.

End Py.

(** ** core/signal_generator.py *)

Module SignalGenerator.
Import Py.
Local Open Scope Q_scope.
Local Open Scope string_scope.

(** The elementwise functions that [generate] takes from numpy and scipy:
    [np.pi], [np.sin], [np.cos], [np.exp], and one sample of
    [scipy.signal.square(t, duty)] and [scipy.signal.sawtooth(t, width)]. *)
Class Elementary : Type := {
  np_pi : Q;
  np_sin : Q -> Q;
  np_cos : Q -> Q;
  np_exp : Q -> Q;
  square : Q -> Q -> Q;
  sawtooth : Q -> Q -> Q
}.

(** The state of a generator: [self.fs], [self.duration], [self.t]. *)
Record state : Type := {
  fs : Q;
  duration : Q;
  t : list Q
}.

(** The keyword arguments read by [generate].  The text under
    ['function'] is represented by what [eval] makes of it with [np] and
    [t] bound: a function of the time vector that raises or yields an
    array. *)
Record kwargs : Type := {
  amplitude : option Q;
  frequency : option Q;
  phase : option Q;
  dc_offset : option Q;
  duty_cycle : option Q;
  width : option Q;
  decay_rate : option Q;
  step_time : option Q;
  impulse_time : option Q;
  center : option Q;
  std_dev : option Q;
  function : option (list Q -> result (list Q))
}.

Definition no_kwargs : kwargs :=
  {| amplitude := None; frequency := None; phase := None; dc_offset := None;
     duty_cycle := None; width := None; decay_rate := None; step_time := None;
     impulse_time := None; center := None; std_dev := None;
     function := None |}.

(** [SignalGenerator(fs, duration)] *)
Definition init (fs duration : Q) : result state :=
  bind (linspace 0 duration (int (fs * duration)) false) (fun t =>
  Ok {| fs := fs; duration := duration; t := t |}).

(** [set_parameters(fs=None, duration=None)]: the generator it leaves
    and how the call ends.  The method assigns [self.fs] and
    [self.duration] before [np.linspace] runs, so when [np.linspace]
    raises the two parameters have already changed and [self.t] is still
    the old time vector. *)
Definition set_parameters (self : state) (new_fs new_duration : option Q)
  : state * result unit :=
  let self1 :=
    match new_fs with
    | Some v => {| fs := v; duration := duration self; t := t self |}
    | None => self
    end in
  let self2 :=
    match new_duration with
    | Some v => {| fs := fs self1; duration := v; t := t self1 |}
    | None => self1
    end in
  match linspace 0 (duration self2) (int (fs self2 * duration self2)) false with
  | Ok t' => ({| fs := fs self2; duration := duration self2; t := t' |}, Ok tt)
  | Raise e => (self2, Raise e)
  end.

Section Generate.
Context {E : Elementary}.

(** ['np.sin(2*np.pi*t)'], the default of ['function'] *)
Definition default_function (t : list Q) : result (list Q) :=
  Ok (map (fun ti => np_sin (2 * np_pi * ti)) t).

(** [generate(signal_type, **kwargs)]: the pair [(self.t.copy(), x)]. *)
Definition generate (self : state) (signal_type : string) (kw : kwargs)
  : result (list Q * list Q) :=
  let amplitude := get (amplitude kw) 1.0 in
  let frequency := get (frequency kw) 1.0 in
  let phase := get (phase kw) 0.0 in
  let dc_offset := get (dc_offset kw) 0.0 in
  bind
    (if signal_type =? "Sine Wave" then
       Ok (map (fun ti =>
                  amplitude * np_sin (2 * np_pi * frequency * ti + phase)
                  + dc_offset) (t self))
     else if signal_type =? "Cosine Wave" then
       Ok (map (fun ti =>
                  amplitude * np_cos (2 * np_pi * frequency * ti + phase)
                  + dc_offset) (t self))
     else if signal_type =? "Square Wave" then
       let duty_cycle := get (duty_cycle kw) 0.5 in
       Ok (map (fun ti =>
                  amplitude
                  * square (2 * np_pi * frequency * ti + phase) duty_cycle
                  + dc_offset) (t self))
     else if signal_type =? "Triangle Wave" then
       let width := get (width kw) 0.5 in
       Ok (map (fun ti =>
                  amplitude
                  * sawtooth (2 * np_pi * frequency * ti + phase) width
                  + dc_offset) (t self))
     else if signal_type =? "Sawtooth Wave" then
       Ok (map (fun ti =>
                  amplitude
                  * sawtooth (2 * np_pi * frequency * ti + phase) 1
                  + dc_offset) (t self))
     else if signal_type =? "Exponential Decay" then
       let decay_rate := get (decay_rate kw) 1.0 in
       Ok (map (fun ti => amplitude * np_exp (- decay_rate * ti) + dc_offset)
               (t self))
     else if signal_type =? "Unit Step" then
       let step_time := get (step_time kw) 0.0 in
       Ok (map (fun ti =>
                  amplitude * (if Qle_bool step_time ti then 1 else 0)
                  + dc_offset) (t self))
     else if signal_type =? "Impulse" then
       let impulse_time := get (impulse_time kw) 0.0 in
       let x := zeros_like (t self) in
       bind (argmin (map (fun ti => Qabs (ti - impulse_time)) (t self)))
            (fun idx => setitem x idx amplitude)
     else if signal_type =? "Gaussian Pulse" then
       let center := get (center kw) (duration self / 2) in
       let std_dev := get (std_dev kw) 0.1 in
       Ok (map (fun ti =>
                  amplitude
                  * np_exp (- 0.5 * ((ti - center) / std_dev) ^ 2)
                  + dc_offset) (t self))
     else if signal_type =? "Custom Function" then
       let func := get (function kw) default_function in
       try_except
         (bind (func (t self)) (fun v => Ok (map (fun vi => vi + dc_offset) v)))
         (fun e => Raise (InvalidCustomFunction e))
     else
       Raise (UnknownSignalType signal_type))
    (fun x => Ok (t self, x)).

End Generate.

(** The signal types listed in [config.SIGNAL_TYPES]. *)
Definition SIGNAL_TYPES : list string :=
  [ "Sine Wave"; "Cosine Wave"; "Square Wave"; "Triangle Wave";
    "Sawtooth Wave"; "Exponential Decay"; "Unit Step"; "Impulse";
    "Gaussian Pulse"; "Custom Function" ].

End SignalGenerator.

(** ** core/system_analyzer.py *)

Module SystemAnalyzer.
Import Py.
Local Open Scope Q_scope.
Local Open Scope string_scope.

(** A double that may have left the finite numbers, and a complex sample
    of a frequency response. *)
Inductive float : Type :=
| Finite (q : Q)
| PosInf
| NegInf
| NaN.

Definition complex : Type := (float * float)%type.

Definition czero : complex := (Finite 0, Finite 0).

(** [np.nan_to_num(h, nan=0.0, posinf=0.0, neginf=0.0)] on one part, and
    on a complex sample (numpy treats the two parts separately). *)
Definition nan_to_num1 (x : float) : float :=
  match x with
  | Finite q => Finite q
  | PosInf | NegInf | NaN => Finite 0.0
  end.

Definition nan_to_num (h : list complex) : list complex :=
  map (fun z => (nan_to_num1 (fst z), nan_to_num1 (snd z))) h.

Inductive btype : Type := low | high | band.

(** The keyword arguments read by [create_system].  The texts under
    ['numerator'] and ['denominator'] are represented by what
    [np.array(eval(text))] makes of them: an exception or an array. *)
Record kwargs : Type := {
  cutoff : option Q;
  order : option Q;
  lowcut : option Q;
  highcut : option Q;
  window_size : option Q;
  alpha : option Q;
  beta : option Q;
  numerator : option (result (list Q));
  denominator : option (result (list Q))
}.

Definition no_kwargs : kwargs :=
  {| cutoff := None; order := None; lowcut := None; highcut := None;
     window_size := None; alpha := None; beta := None;
     numerator := None; denominator := None |}.

(** [x / y] on Python floats. *)
Definition truediv (x y : Q) : result Q :=
  if Qeq_bool y 0 then Raise ZeroDivisionError else Ok (x / y).

(** The band handed to the band-pass design (the lines under
    "Ensure valid band"): both edges are clamped, and the pair (5, 15)
    replaces them when the clamped edges are not in order. *)
Definition valid_band (nyquist lowcut highcut : Q) : Q * Q :=
  let lowcut := max lowcut 0.1 in
  let highcut := min highcut (nyquist * 0.99) in
  if Qle_bool highcut lowcut then (5.0, 15.0) else (lowcut, highcut).

(** The body of the [try] of "Custom System", from the evaluated arrays
    on. *)
Definition custom_coefficients (b a : list Q) : result (list Q * list Q) :=
  if (length b =? 0)%nat || (length a =? 0)%nat then
    Raise EmptyCoefficientArray
  else
    let b_trimmed := trim_zeros_f b in
    let a_trimmed := trim_zeros_f a in
    let b := if (0 <? length b_trimmed)%nat then b_trimmed else [0.0] in
    let a := if (0 <? length a_trimmed)%nat then a_trimmed else [1.0] in
    if Qltb (Qabs (nth 0 a 0)) 1e-12 then Raise ZeroLeadingDenominator
    else Ok (b, a).

(** The sum of [c[k] * s[n - k]] for [k] from [from] to the end of [c],
    entries of [s] before its start counting as zero. *)
Definition tap (s : list Q) (n k : nat) : Q :=
  if (k <=? n)%nat then nth (n - k) s 0 else 0.

Definition taps (c s : list Q) (n from : nat) : Q :=
  fold_right Qplus 0
    (map (fun k => nth k c 0 * tap s n k) (seq from (length c - from))).

(** The first [n] outputs of the difference equation of
    [scipy.signal.lfilter]:
    [a[0]*y[n] = b[0]*x[n] + ... + b[M]*x[n-M] - a[1]*y[n-1] - ... - a[N]*y[n-N]]. *)
Fixpoint lfilter_out (b a x : list Q) (n : nat) : list Q :=
  match n with
  | O => []
  | S m =>
      let y := lfilter_out b a x m in
      y ++ [(taps b x m 0 - taps a y m 1) / nth 0 a 0]
  end.

(** [scipy.signal.lfilter(b, a, x)].  Without coefficients, or with
    [a[0] = 0], scipy raises or leaves the finite numbers. *)
Definition lfilter (b a x : list Q) : result (list Q) :=
  if (length b =? 0)%nat || (length a =? 0)%nat || Qeq_bool (nth 0 a 0) 0
  then Raise (LibraryError "lfilter")
  else Ok (lfilter_out b a x (length x)).

Section Responses.

(** [scipy.signal.butter(order, Wn, btype, analog=False)] *)
Variable butter : Z -> list Q -> btype -> result (list Q * list Q).

(** [dimpulse(dlti(b, a, dt=dt), t=t)] and [dstep(dlti(b, a, dt=dt), t=t)],
    with the output squeezed. *)
Variable dimpulse : list Q -> list Q -> Q -> list Q -> result (list Q * list Q).
Variable dstep : list Q -> list Q -> Q -> list Q -> result (list Q * list Q).

(** [scipy.signal.freqz(b, a, worN=n_points, fs=fs)] *)
Variable freqz : list Q -> list Q -> Z -> Q -> result (list Q * list complex).

(** [create_system(system_type, **kwargs)] on an analyzer of sampling
    rate [fs]. *)
Definition create_system (fs : Q) (system_type : string) (kw : kwargs)
  : result (list Q * list Q) :=
  if system_type =? "Low-pass Filter" then
    let cutoff := get (cutoff kw) 10.0 in
    let order := int (get (order kw) 4) in
    let nyquist := fs / 2 in
    let cutoff := if Qle_bool nyquist cutoff then nyquist * 0.99 else cutoff in
    bind (truediv cutoff nyquist) (fun normalized_cutoff =>
    butter order [normalized_cutoff] low)
  else if system_type =? "High-pass Filter" then
    let cutoff := get (cutoff kw) 10.0 in
    let order := int (get (order kw) 4) in
    let nyquist := fs / 2 in
    let cutoff := if Qle_bool cutoff 0 then 1.0 else cutoff in
    let cutoff := if Qle_bool nyquist cutoff then nyquist * 0.99 else cutoff in
    bind (truediv cutoff nyquist) (fun normalized_cutoff =>
    butter order [normalized_cutoff] high)
  else if system_type =? "Band-pass Filter" then
    let lowcut := get (lowcut kw) 5.0 in
    let highcut := get (highcut kw) 15.0 in
    let order := int (get (order kw) 4) in
    let nyquist := fs / 2 in
    let '(lowcut, highcut) := valid_band nyquist lowcut highcut in
    bind (truediv lowcut nyquist) (fun low =>
    bind (truediv highcut nyquist) (fun high =>
    butter order [low; high] band))
  else if system_type =? "Moving Average" then
    let window_size := int (get (window_size kw) 5) in
    let window_size := if (window_size <? 1)%Z then 1%Z else window_size in
    let b := map (fun one => one / inject_Z window_size)
                 (ones (Z.to_nat window_size)) in
    let a := [1.0] in
    Ok (b, a)
  else if system_type =? "Differentiator" then
    let alpha := get (alpha kw) 0.95 in
    let alpha := clip alpha 0.0 0.999 in
    Ok ([1.0; - 1.0], [1.0; - alpha])
  else if system_type =? "Integrator" then
    let beta := get (beta kw) 0.99 in
    let beta := clip beta 0.0 0.9999 in
    Ok ([1.0], [1.0; - beta])
  else if system_type =? "Custom System" then
    let b_str := get (numerator kw) (Ok [1]) in
    let a_str := get (denominator kw) (Ok [1]) in
    try_except
      (bind b_str (fun b => bind a_str (fun a => custom_coefficients b a)))
      (fun e => Raise (InvalidSystemCoefficients e))
  else
    Raise (UnknownSystemType system_type).

(** The default time vector of the responses: 2 seconds at [fs]. *)
Definition default_t (fs : Q) : result (list Q) :=
  linspace 0 2.0 (int (2.0 * fs)) false.

(** [impulse_response(b, a, t=None)].  The static gain [b[0] / a[0]] is
    a division of numpy: it does not raise, and with [a[0] = 0] it is
    not a finite number, which [Q] does not show. *)
Definition impulse_response (fs : Q) (b a : list Q) (t : option (list Q))
  : result (list Q * list Q) :=
  bind (match t with Some t => Ok t | None => default_t fs end) (fun t =>
  if (length a =? 1)%nat && (length b =? 1)%nat then
    let h := zeros_like t in
    bind (setitem h 0 (nth 0 b 0 / nth 0 a 0)) (fun h =>
    Ok (t, h))
  else if (length a <? length b)%nat then
    let N := length t in
    bind (setitem (zeros N) 0 1.0) (fun impulse =>
    bind (lfilter b a impulse) (fun h =>
    Ok (t, h)))
  else
    try_except
      (bind (truediv 1 fs) (fun dt => dimpulse b a dt t))
      (fun _ =>
         let N := length t in
         bind (setitem (zeros N) 0 1.0) (fun impulse =>
         bind (lfilter b a impulse) (fun h =>
         Ok (t, h))))).

(** [step_response(b, a, t=None)] *)
Definition step_response (fs : Q) (b a : list Q) (t : option (list Q))
  : result (list Q * list Q) :=
  bind (match t with Some t => Ok t | None => default_t fs end) (fun t =>
  if (length a =? 1)%nat && (length b =? 1)%nat then
    let step_val := nth 0 b 0 / nth 0 a 0 in
    Ok (t, full_like t step_val)
  else if (length a <? length b)%nat then
    let N := length t in
    let step_input := ones N in
    bind (lfilter b a step_input) (fun s =>
    Ok (t, s))
  else
    try_except
      (bind (truediv 1 fs) (fun dt => dstep b a dt t))
      (fun _ =>
         let N := length t in
         let step_input := ones N in
         bind (lfilter b a step_input) (fun s =>
         Ok (t, s)))).

(** [frequency_response(b, a, n_points=1024)] *)
Definition frequency_response (fs : Q) (b a : list Q) (n_points : Z)
  : result (list Q * list complex) :=
  try_except
    (bind (freqz b a n_points fs) (fun '(w, h) =>
     let h := nan_to_num h in
     Ok (w, h)))
    (fun _ =>
       bind (linspace 0 (fs / 2) (n_points / 2 + 1) true) (fun w =>
       let h := map (fun _ => czero) w in
       Ok (w, h))).

(** [apply_system(b, a, input_signal)] *)
Definition apply_system (b a input_signal : list Q) : result (list Q) :=
  if (length input_signal =? 0)%nat then Ok []
  else lfilter b a input_signal.

End Responses.

End SystemAnalyzer.

(** ** core/transform.py: [ZTransform] *)

Module ZTransform.
Local Open Scope Q_scope.

(** A finite complex number with rational parts. *)
Definition complex : Type := (Q * Q)%type.

Definition ceq (z w : complex) : Prop := fst z == fst w /\ snd z == snd w.
Definition c0 : complex := (0, 0).
Definition c1 : complex := (1, 0).
Definition cadd (z w : complex) : complex := (fst z + fst w, snd z + snd w).
Definition cmul (z w : complex) : complex :=
  (fst z * fst w - snd z * snd w, fst z * snd w + snd z * fst w).
Definition cscale (r : Q) (z : complex) : complex := (r * fst z, r * snd z).
Definition norm2 (z : complex) : Q := fst z * fst z + snd z * snd z.
Definition cinv (z : complex) : complex :=
  (fst z / norm2 z, - snd z / norm2 z).
Definition is_zero (z : complex) : bool :=
  Qeq_bool (fst z) 0 && Qeq_bool (snd z) 0.

Fixpoint cpow (z : complex) (k : nat) : complex :=
  match k with
  | O => c1
  | S k' => cmul z (cpow z k')
  end.

(** [z ** -k] for an index [k]: the power 0 of anything is 1; a negative
    power of zero is not a finite number. *)
Definition pow_neg (z : complex) (k : nat) : option complex :=
  match k with
  | O => Some c1
  | S _ => if is_zero z then None else Some (cinv (cpow z k))
  end.

(** [np.sum(c * (z ** -np.arange(len(c))))]; one term that is not finite
    makes the sum not finite. *)
Fixpoint series_from (z : complex) (c : list Q) (k : nat) : option complex :=
  match c with
  | [] => Some c0
  | ck :: c' =>
      match pow_neg z k, series_from z c' (S k) with
      | Some p, Some s => Some (cadd (cscale ck p) s)
      | _, _ => None
      end
  end.

Definition series (z : complex) (c : list Q) : option complex :=
  series_from z c 0.

(** [num / den] on numpy complex numbers: finite exactly when [den] is
    not zero. *)
Definition cdiv (num den : complex) : option complex :=
  if is_zero den then None else Some (cmul num (cinv den)).

(** [ZTransform.evaluate(z, b, a)] for a complex [z]; numpy raises
    nothing here, and [None] stands for a value that is not finite. *)
Definition evaluate (z : complex) (b a : list Q) : option complex :=
  match series z b, series z a with
  | Some num, Some den => cdiv num den
  | _, _ => None
  end.

End ZTransform.

(** ** core/transform.py: [FourierTransform] *)

Module FourierTransform.
Import Py.
Import Reals.
Local Open Scope R_scope.

(** Complex numbers over the reals: the transform needs the complex
    exponential, so this class is modelled in exact real arithmetic. *)
Definition C : Type := (R * R)%type.

Definition C0 : C := (0, 0).
Definition RtoC (x : R) : C := (x, 0).
Definition Cadd (z w : C) : C := (fst z + fst w, snd z + snd w).
Definition Cmul (z w : C) : C :=
  (fst z * fst w - snd z * snd w, fst z * snd w + snd z * fst w).
Definition Cscale (r : R) (z : C) : C := (r * fst z, r * snd z).

(** [exp(i * theta)] *)
Definition cis (theta : R) : C := (cos theta, sin theta).

Fixpoint Csum (f : nat -> C) (n : nat) : C :=
  match n with
  | O => C0
  | S m => Cadd (Csum f m) (f m)
  end.

(** The transform pair documented for [scipy.fft.fft] and
    [scipy.fft.ifft]:
    [X[k] = sum_n x[n] * exp(-2 pi i k n / N)] and
    [x[n] = (1/N) * sum_k X[k] * exp(2 pi i k n / N)]. *)
Definition dft (x : list C) : list C :=
  let N := length x in
  map (fun k =>
         Csum (fun n =>
                 Cmul (nth n x C0) (cis (- (2 * PI * INR k * INR n / INR N))))
              N)
      (seq 0 N).

Definition idft (X : list C) : list C :=
  let N := length X in
  map (fun n =>
         Cscale (/ INR N)
           (Csum (fun k =>
                    Cmul (nth k X C0) (cis (2 * PI * INR k * INR n / INR N)))
                 N))
      (seq 0 N).

(** [scipy.fft.fft(x)] and [scipy.fft.ifft(X)] refuse an empty array. *)
Definition scipy_fft (x : list C) : result (list C) :=
  match x with
  | [] => Raise (LibraryError "invalid number of data points (0) specified")
  | _ => Ok (dft x)
  end.

Definition scipy_ifft (X : list C) : result (list C) :=
  match X with
  | [] => Raise (LibraryError "invalid number of data points (0) specified")
  | _ => Ok (idft X)
  end.

(** [scipy.fft.fftfreq(n, d)]: the bins [0, 1, ..., (n-1)//2] followed by
    [-(n//2), ..., -1], each divided by [n * d]. *)
Definition fftfreq (n : nat) (d : R) : list R :=
  map (fun k =>
         (if (k <=? (n - 1) / 2)%nat then INR k else INR k - INR n)
         * (1 / (INR n * d)))
      (seq 0 n).

(** [x / y] on Python floats. *)
Definition truediv (x y : R) : result R :=
  if Req_dec_T y 0 then Raise ZeroDivisionError else Ok (x / y).

(** [FourierTransform.fft(signal, fs)] *)
Definition fft (signal : list R) (fs : R) : result (list R * list C) :=
  let N := length signal in
  bind (scipy_fft (map RtoC signal)) (fun X =>
  bind (truediv 1 fs) (fun d =>
  let freq := fftfreq N d in
  Ok (freq, X))).

(** [FourierTransform.ifft(X)]: the real parts of the inverse transform. *)
Definition ifft (X : list C) : result (list R) :=
  bind (scipy_ifft X) (fun x => Ok (map fst x)).

End FourierTransform.

(** ** config/__init__.py *)

Module Config.
Local Open Scope string_scope.

(** The system types listed in [config.SYSTEM_TYPES]. *)
Definition SYSTEM_TYPES : list string :=
  [ "Low-pass Filter"; "High-pass Filter"; "Band-pass Filter";
    "Moving Average"; "Differentiator"; "Integrator"; "Custom System" ].

End Config.

(** ** core/transform.py: [LaplaceTransform] *)

Module LaplaceTransform.
Import Py ZTransform.
Local Open Scope Q_scope.

Definition csub (z w : complex) : complex := (fst z - fst w, snd z - snd w).

(** [LaplaceTransform.evaluate(s, poles, zeros, gain)] on Python complex
    numbers: the two products are accumulated from [gain] and from 1,
    and the final division raises on a zero denominator. *)
Definition evaluate (s : complex) (poles zeros : list complex) (gain : Q)
  : result complex :=
  let numerator :=
    fold_left (fun numerator zero => cmul numerator (csub s zero))
              zeros (gain, 0) in
  let denominator :=
    fold_left (fun denominator pole => cmul denominator (csub s pole))
              poles (1.0, 0) in
  if is_zero denominator then Raise ZeroDivisionError
  else Ok (cmul numerator (cinv denominator)).

End LaplaceTransform.

(** ** core/utils.py *)

Module Utils.
Import Py.
Local Open Scope Q_scope.

(** A sample that may be NaN or infinite: [np.isfinite] is the point of
    [validate_signal]. *)
Definition isfinite (x : SystemAnalyzer.float) : bool :=
  match x with
  | SystemAnalyzer.Finite _ => true
  | _ => false
  end.

(** [np.diff(t)]: [t[1:] - t[:-1]]. *)
Fixpoint diff (t : list Q) : list Q :=
  match t with
  | [] => []
  | t0 :: t' =>
      match t' with
      | [] => []
      | t1 :: _ => (t1 - t0) :: diff t'
      end
  end.

(** [validate_signal(t, x)] *)
Definition validate_signal (t : list Q) (x : list SystemAnalyzer.float)
  : bool :=
  if negb (length t =? length x)%nat then false
  else if negb (forallb isfinite x) then false
  else if negb (forallb (fun d => Qltb 0 d) (diff t)) then false
  else true.

(** [np.max(x)]: the greatest entry; an empty array is refused. *)
Definition amax (x : list Q) : result Q :=
  match x with
  | [] => Raise (LibraryError "zero-size array to reduction operation maximum which has no identity")
  | x0 :: x' => Ok (fold_left (fun m v => if Qltb m v then v else m) x' x0)
  end.

(** [normalize_signal(x)] *)
Definition normalize_signal (x : list Q) : result (list Q) :=
  bind (amax (map Qabs x)) (fun max_val =>
  if Qeq_bool max_val 0 then Ok x
  else Ok (map (fun v => v / max_val) x)).

(** [np.mean(x)]: NaN on an empty array. *)
Definition mean (x : list Q) : option Q :=
  match x with
  | [] => None
  | _ => Some (fold_right Qplus 0 x / of_nat (length x))
  end.

Section Snr.

(** [np.log10] on a positive number. *)
Variable log10 : Q -> Q.

(** [calculate_snr(signal, noise)].  A NaN power compares unequal to 0
    and makes the result NaN; the logarithm of a zero ratio is minus
    infinity.  The samples are rationals and their squares are exact: a
    square that underflows to zero and a power or ratio that overflows
    are doubles' behaviour that this definition leaves out. *)
Definition calculate_snr (signal noise : list Q) : SystemAnalyzer.float :=
  let signal_power := mean (map (fun v => v ^ 2) signal) in
  let noise_power := mean (map (fun v => v ^ 2) noise) in
  match noise_power with
  | None => SystemAnalyzer.NaN
  | Some np =>
      if Qeq_bool np 0 then SystemAnalyzer.PosInf
      else
        match signal_power with
        | None => SystemAnalyzer.NaN
        | Some sp =>
            if Qeq_bool (sp / np) 0 then SystemAnalyzer.NegInf
            else SystemAnalyzer.Finite (10 * log10 (sp / np))
        end
  end.

End Snr.

End Utils.

(** ** core/transform.py: [ZTransform.evaluate] at a float or an int *)

Module ZTransformFloat.
Import Py SystemAnalyzer.
Local Open Scope Q_scope.

(** The annotation [z: complex] also admits a Python float and a Python
    int.  With a float [z] numpy computes in doubles and raises nothing:
    a division by zero gives an infinity or NaN, and so does a negative
    power of zero.  A double is modelled by [float]: finite values are
    rationals with exact arithmetic, the rational zero of the argument
    [z] stands for [0.0], and a result [Finite 0] stands for a zero of
    either sign. *)
Definition fmul (x y : float) : float :=
  match x, y with
  | NaN, _ | _, NaN => NaN
  | Finite p, Finite q => Finite (p * q)
  | Finite p, PosInf | PosInf, Finite p =>
      if Qeq_bool p 0 then NaN else if Qltb 0 p then PosInf else NegInf
  | Finite p, NegInf | NegInf, Finite p =>
      if Qeq_bool p 0 then NaN else if Qltb 0 p then NegInf else PosInf
  | PosInf, PosInf | NegInf, NegInf => PosInf
  | PosInf, NegInf | NegInf, PosInf => NegInf
  end.

Definition fadd (x y : float) : float :=
  match x, y with
  | NaN, _ | _, NaN => NaN
  | Finite p, Finite q => Finite (p + q)
  | PosInf, NegInf | NegInf, PosInf => NaN
  | PosInf, _ | _, PosInf => PosInf
  | NegInf, _ | _, NegInf => NegInf
  end.

Definition fdiv (x y : float) : float :=
  match x, y with
  | NaN, _ | _, NaN => NaN
  | Finite p, Finite q =>
      if Qeq_bool q 0 then
        if Qeq_bool p 0 then NaN else if Qltb 0 p then PosInf else NegInf
      else Finite (p / q)
  | Finite _, PosInf | Finite _, NegInf => Finite 0
  | PosInf, Finite q => if Qltb q 0 then NegInf else PosInf
  | NegInf, Finite q => if Qltb q 0 then PosInf else NegInf
  | PosInf, PosInf | PosInf, NegInf | NegInf, PosInf | NegInf, NegInf => NaN
  end.

(** [z ** -k] for a float [z]: [0.0 ** 0] is 1 and [0.0 ** -k] is
    [inf] for [k >= 1]. *)
Definition pow_neg (z : Q) (k : nat) : float :=
  match k with
  | O => Finite 1
  | S _ => if Qeq_bool z 0 then PosInf else Finite (/ (z ^ Z.of_nat k))
  end.

(** [np.sum(c * (z ** -np.arange(len(c))))]; the sum of an empty array
    is [0.0]. *)
Fixpoint series_from (z : Q) (c : list Q) (k : nat) : float :=
  match c with
  | [] => Finite 0
  | ck :: c' => fadd (fmul (Finite ck) (pow_neg z k)) (series_from z c' (S k))
  end.

Definition series (z : Q) (c : list Q) : float := series_from z c 0.

(** [ZTransform.evaluate(z, b, a)] for a float [z]. *)
Definition evaluate (z : Q) (b a : list Q) : float :=
  fdiv (series z b) (series z a).

(** With an int [z] the powers [z ** -np.arange(n)] are integer powers,
    and numpy raises [ValueError] ("Integers to negative integer powers
    are not allowed") as soon as one exponent is negative, whatever the
    base; the numerator is computed first.  With at most one coefficient
    the only power is [z ** 0 = 1]. *)
Inductive outcome : Type :=
| Value (x : float)
| ValueError_negative_integer_power.

Definition int_series (z : Z) (c : list Q) : option float :=
  match c with
  | [] => Some (Finite 0)
  | [c0] => Some (Finite (c0 * 1))
  | _ :: _ :: _ => None
  end.

Definition evaluate_int (z : Z) (b a : list Q) : outcome :=
  match int_series z b with
  | None => ValueError_negative_integer_power
  | Some num =>
      match int_series z a with
      | None => ValueError_negative_integer_power
      | Some den => Value (fdiv num den)
      end
  end.

End ZTransformFloat.

(** ** Values used to run the embedding on examples *)

Module Examples.
Import Py.
Local Open Scope Q_scope.

(** Rational stand-ins for the elementary functions (short Taylor
    polynomials and one period of the two waveforms); they only serve to
    evaluate [generate] on concrete inputs. *)
Definition taylor : SignalGenerator.Elementary :=
  {| SignalGenerator.np_pi := 3.141592653589793;
     SignalGenerator.np_sin := fun x => x - x ^ 3 / 6;
     SignalGenerator.np_cos := fun x => 1 - x ^ 2 / 2;
     SignalGenerator.np_exp := fun x => 1 + x + x ^ 2 / 2;
     SignalGenerator.square := fun x duty =>
       if Qltb x (duty * 6.283185307179586) then 1 else - 1;
     SignalGenerator.sawtooth := fun x width =>
       if Qltb x (width * 6.283185307179586)
       then 2 * x / (width * 6.283185307179586) - 1
       else 1 |}.

(** A generator whose time vector is empty: [SignalGenerator(1, 0.5)]. *)
Definition empty_generator : SignalGenerator.state :=
  {| SignalGenerator.fs := 1; SignalGenerator.duration := 0.5;
     SignalGenerator.t := [] |}.

(** The custom function ['np.ones(3)']: an array that ignores [t]. *)
Definition ones3 (t : list Q) : result (list Q) := Ok (ones 3).

Definition custom_ones3 : SignalGenerator.kwargs :=
  {| SignalGenerator.amplitude := None; SignalGenerator.frequency := None;
     SignalGenerator.phase := None; SignalGenerator.dc_offset := None;
     SignalGenerator.duty_cycle := None; SignalGenerator.width := None;
     SignalGenerator.decay_rate := None; SignalGenerator.step_time := None;
     SignalGenerator.impulse_time := None; SignalGenerator.center := None;
     SignalGenerator.std_dev := None;
     SignalGenerator.function := Some ones3 |}.

(** Stand-ins for scipy's design and response routines: a [butter] that
    returns its order and its normalized band, to observe what
    [create_system] hands to it, and routines that always raise. *)
Definition echo_butter (order : Z) (Wn : list Q) (kind : SystemAnalyzer.btype)
  : result (list Q * list Q) :=
  Ok ([inject_Z order], Wn).

Definition failing_response (b a : list Q) (dt : Q) (t : list Q)
  : result (list Q * list Q) :=
  Raise (LibraryError "dlti").

Definition failing_freqz (b a : list Q) (worN : Z) (fs : Q)
  : result (list Q * list SystemAnalyzer.complex) :=
  Raise (LibraryError "freqz").

(** Keyword arguments of [create_system] used below. *)
Definition denominator_kwargs (a : list Q) : SystemAnalyzer.kwargs :=
  {| SystemAnalyzer.cutoff := None; SystemAnalyzer.order := None;
     SystemAnalyzer.lowcut := None; SystemAnalyzer.highcut := None;
     SystemAnalyzer.window_size := None; SystemAnalyzer.alpha := None;
     SystemAnalyzer.beta := None; SystemAnalyzer.numerator := None;
     SystemAnalyzer.denominator := Some (Ok a) |}.

Definition band_kwargs (lowcut highcut : Q) : SystemAnalyzer.kwargs :=
  {| SystemAnalyzer.cutoff := None; SystemAnalyzer.order := None;
     SystemAnalyzer.lowcut := Some lowcut;
     SystemAnalyzer.highcut := Some highcut;
     SystemAnalyzer.window_size := None; SystemAnalyzer.alpha := None;
     SystemAnalyzer.beta := None; SystemAnalyzer.numerator := None;
     SystemAnalyzer.denominator := None |}.

Definition window_kwargs (window_size : Q) : SystemAnalyzer.kwargs :=
  {| SystemAnalyzer.cutoff := None; SystemAnalyzer.order := None;
     SystemAnalyzer.lowcut := None; SystemAnalyzer.highcut := None;
     SystemAnalyzer.window_size := Some window_size;
     SystemAnalyzer.alpha := None; SystemAnalyzer.beta := None;
     SystemAnalyzer.numerator := None; SystemAnalyzer.denominator := None |}.

(** A generator with the sample times 0, 0.5 and 1, and an impulse of
    amplitude 3 asked for at time 0.6 with a DC offset of 7. *)
Definition three_samples : SignalGenerator.state :=
  {| SignalGenerator.fs := 2; SignalGenerator.duration := 1.5;
     SignalGenerator.t := [0; 0.5; 1] |}.

Definition impulse_at_06 : SignalGenerator.kwargs :=
  {| SignalGenerator.amplitude := Some 3; SignalGenerator.frequency := None;
     SignalGenerator.phase := None; SignalGenerator.dc_offset := Some 7;
     SignalGenerator.duty_cycle := None; SignalGenerator.width := None;
     SignalGenerator.decay_rate := None; SignalGenerator.step_time := None;
     SignalGenerator.impulse_time := Some 0.6; SignalGenerator.center := None;
     SignalGenerator.std_dev := None;
     SignalGenerator.function := None |}.

End Examples.

(** [kwargs] with ['dc_offset'] set to [D]. *)
Definition with_dc_offset (kw : SignalGenerator.kwargs) (D : Q)
  : SignalGenerator.kwargs :=
  {| SignalGenerator.amplitude := SignalGenerator.amplitude kw;
     SignalGenerator.frequency := SignalGenerator.frequency kw;
     SignalGenerator.phase := SignalGenerator.phase kw;
     SignalGenerator.dc_offset := Some D;
     SignalGenerator.duty_cycle := SignalGenerator.duty_cycle kw;
     SignalGenerator.width := SignalGenerator.width kw;
     SignalGenerator.decay_rate := SignalGenerator.decay_rate kw;
     SignalGenerator.step_time := SignalGenerator.step_time kw;
     SignalGenerator.impulse_time := SignalGenerator.impulse_time kw;
     SignalGenerator.center := SignalGenerator.center kw;
     SignalGenerator.std_dev := SignalGenerator.std_dev kw;
     SignalGenerator.function := SignalGenerator.function kw |}.

(** ** Finite sums *)

(** The sum of [f 0], ..., [f (n - 1)]. *)
Fixpoint qsum (f : nat -> Q) (n : nat) : Q :=
  match n with
  | O => 0%Q
  | S m => (qsum f m + f m)%Q
  end.

(** ** More values used to run the embedding on examples *)

Module MoreExamples.
Import Py.
Local Open Scope Q_scope.

(** A [freqz] that returns two samples, the second with an infinite real
    part, as at a pole on the unit circle. *)
Definition freqz_with_pole (b a : list Q) (worN : Z) (fs : Q)
  : result (list Q * list SystemAnalyzer.complex) :=
  Ok ([0; 250],
      [(SystemAnalyzer.Finite 1, SystemAnalyzer.Finite 0);
       (SystemAnalyzer.PosInf, SystemAnalyzer.Finite 2)]).

(** [SignalGenerator(10, 0.25)]: the sample times 0 and 0.125, written
    as [linspace] computes them. *)
Definition quarter_second : SignalGenerator.state :=
  {| SignalGenerator.fs := 10; SignalGenerator.duration := 0.25;
     SignalGenerator.t :=
       [of_nat 0 * ((0.25 - 0) / inject_Z 2) + 0;
        of_nat 1 * ((0.25 - 0) / inject_Z 2) + 0] |}.

End MoreExamples.

(** * Properties of the signal generator *)

Section SignalGeneratorFacts.
Import Py SignalGenerator.
Local Open Scope Q_scope.

Lemma int_nonneg (x : Q) : 0 <= x -> int x = Qfloor x.
Proof.
  destruct x as [n d]; unfold Qle, int, Qfloor; simpl; intros H.
  apply Z.quot_div_nonneg; lia.
Qed.

Lemma Qltb_lt (x y : Q) : Qltb x y = true <-> x < y.
Proof.
  unfold Qltb. rewrite negb_true_iff.
  destruct (Qle_bool y x) eqn:E.
  - apply Qle_bool_iff in E. split; [discriminate | intros H; exfalso; lra].
  - split; [intros _ | reflexivity].
    destruct (Qlt_le_dec x y) as [H | H]; [exact H |].
    apply Qle_bool_iff in H. congruence.
Qed.

Lemma Qltb_ge (x y : Q) : Qltb x y = false <-> y <= x.
Proof.
  unfold Qltb. rewrite negb_false_iff. apply Qle_bool_iff.
Qed.

Lemma nth_map_seq {A : Type} (f : nat -> A) (n i : nat) (d : A) :
  (i < n)%nat -> nth i (map f (seq 0 n)) d = f i.
Proof.
  intros H. rewrite (nth_indep _ d (f 0%nat)) by (rewrite length_map, length_seq; exact H).
  rewrite (map_nth f (seq 0 n) 0%nat i), seq_nth by exact H. reflexivity.
Qed.

(** The time vector built by [linspace] without its end point. *)
Lemma linspace_open_length (stop : Q) (num : Z) (t : list Q) :
  linspace 0 stop num false = Ok t -> (0 <= num)%Z /\ length t = Z.to_nat num.
Proof.
  unfold linspace. destruct (Z.ltb_spec num 0); [discriminate |].
  intros [= <-]. rewrite length_map, length_seq. split; [lia | reflexivity].
Qed.

Lemma linspace_open_nth (stop : Q) (num : Z) (t : list Q) (i : nat) :
  linspace 0 stop num false = Ok t -> (i < Z.to_nat num)%nat ->
  nth i t 0 == of_nat i * (stop / inject_Z num).
Proof.
  unfold linspace. destruct (Z.ltb_spec num 0); [discriminate |].
  intros [= <-] Hi. rewrite nth_map_seq by exact Hi. cbn [andb].
  destruct (Z.ltb_spec 0 num); [| lia]. unfold Qdiv; ring.
Qed.


Lemma length_replace_nth (x : list Q) (i : nat) (v : Q) :
  length (replace_nth x i v) = length x.
Proof.
  revert i; induction x as [| y x IH]; intros [| i]; simpl; auto.
Qed.

Lemma setitem_length (x y : list Q) (i : nat) (v : Q) :
  setitem x i v = Ok y -> length y = length x.
Proof.
  unfold setitem. destruct (i <? length x)%nat; [| discriminate].
  intros [= <-]. apply length_replace_nth.
Qed.

Section Generate.
Context {E : Elementary}.
Local Open Scope string_scope.

Ltac by_signal_type :=
  unfold generate;
  repeat match goal with
         | |- context [String.eqb ?s ?c] => destruct (String.eqb_spec s c)
         end.

(** Whatever the type, the returned time vector is [self.t]. *)
Lemma generate_time (g : state) (ty : string) (kw : kwargs) (tv x : list Q) :
  generate g ty kw = Ok (tv, x) -> tv = t g.
Proof.
  unfold generate.
  match goal with |- bind ?r _ = _ -> _ => destruct r end; simpl;
    [intros [= <- _]; reflexivity | discriminate].
Qed.

(** Every type that computes its samples from the time vector returns as
    many samples as sample times. *)
Lemma generate_length (g : state) (ty : string) (kw : kwargs) (tv x : list Q) :
  generate g ty kw = Ok (tv, x) -> ty <> "Custom Function" ->
  length x = length tv.
Proof.
  intros H Hty. pose proof (generate_time _ _ _ _ _ H) as ->.
  revert H. by_signal_type; simpl;
    try (intros [= <-]; apply length_map); try discriminate; try contradiction.
  destruct (argmin _) as [idx |]; simpl; [| discriminate].
  destruct (setitem _ idx _) as [y |] eqn:Hset; simpl; [| discriminate].
  intros [= <-]. apply setitem_length in Hset. rewrite Hset.
  unfold zeros_like. apply length_map.
Qed.

End Generate.
End SignalGeneratorFacts.

Section TimeVector.
Import Py SignalGenerator.
Context {E : Elementary}.
Local Open Scope Q_scope.
Local Open Scope string_scope.

Lemma floor_samples (fs duration : Q) :
  0 < fs -> 0 < duration ->
  int (fs * duration) = Qfloor (fs * duration) /\
  (0 <= Qfloor (fs * duration))%Z.
Proof.
  intros Hfs Hd.
  assert (H : 0 <= fs * duration) by (apply Qmult_le_0_compat; lra).
  split; [apply int_nonneg; exact H |].
  change 0%Z with (Qfloor 0). apply Qfloor_resp_le. exact H.
Qed.

Lemma of_nat_to_nat (z : Z) : (0 <= z)%Z -> of_nat (Z.to_nat z) = inject_Z z.
Proof. intros H. unfold of_nat. rewrite Z2Nat.id by exact H. reflexivity. Qed.

Lemma of_nat_S (i : nat) : of_nat (S i) == of_nat i + 1.
Proof.
  unfold of_nat. rewrite Nat2Z.inj_succ, <- Z.add_1_r, inject_Z_plus.
  reflexivity.
Qed.

Lemma of_nat_pos (n : nat) : (0 < n)%nat -> 0 < of_nat n.
Proof.
  intros H. unfold of_nat. change 0 with (inject_Z 0).
  rewrite <- Zlt_Qlt. lia.
Qed.

(** C4, as amended.  For positive [fs] and [duration] the generator has
    [n = floor(fs * duration)] sample times [t[i] = i * duration / n]:
    strictly increasing with the constant step [duration / n].  The step
    is [1 / fs], and [t[i] = i / fs], exactly when [fs * duration] is the
    integer [n].  Every result of [generate] carries that time vector,
    and for every type but "Custom Function" as many samples as sample
    times. *)
Theorem time_vector_and_lengths (fs duration : Q) :
  0 < fs -> 0 < duration ->
  exists g,
    init fs duration = Ok g /\
    let n := Z.to_nat (Qfloor (fs * duration)) in
    let step := duration / of_nat n in
    length (t g) = n /\
    (forall i, (i < n)%nat -> nth i (t g) 0 == of_nat i * step) /\
    (forall i, (S i < n)%nat ->
       nth i (t g) 0 < nth (S i) (t g) 0 /\
       nth (S i) (t g) 0 - nth i (t g) 0 == step) /\
    ((0 < n)%nat -> (step == 1 / fs <-> fs * duration == of_nat n)) /\
    (fs * duration == of_nat n ->
       forall i, (i < n)%nat -> nth i (t g) 0 == of_nat i / fs) /\
    (forall ty kw tv x,
       generate g ty kw = Ok (tv, x) ->
       tv = t g /\ (ty <> "Custom Function" -> length x = length tv)).
Proof.
  intros Hfs Hd. destruct (floor_samples fs duration Hfs Hd) as [Hint Hn0].
  unfold init. rewrite Hint.
  destruct (linspace 0 duration (Qfloor (fs * duration)) false) as [tv | e] eqn:Hl.
  2:{ unfold linspace in Hl.
      destruct (Z.ltb_spec (Qfloor (fs * duration)) 0); [lia | discriminate]. }
  exists {| fs := fs; duration := duration; t := tv |}. cbv zeta. cbn [t].
  split; [reflexivity |].
  destruct (linspace_open_length _ _ _ Hl) as [_ Hlen].
  assert (Hnth : forall i, (i < Z.to_nat (Qfloor (fs * duration)))%nat ->
            nth i tv 0 ==
            of_nat i * (duration / of_nat (Z.to_nat (Qfloor (fs * duration))))).
  { intros i Hi. rewrite of_nat_to_nat by exact Hn0.
    apply (linspace_open_nth _ _ _ _ Hl Hi). }
  set (n := Z.to_nat (Qfloor (fs * duration))) in *.
  assert (Hstep : (0 < n)%nat -> 0 < duration / of_nat n).
  { intros Hn. apply Qlt_shift_div_l; [apply of_nat_pos; exact Hn | lra]. }
  assert (Hiff : (0 < n)%nat ->
            (duration / of_nat n == 1 / fs <-> fs * duration == of_nat n)).
  { intros Hn. pose proof (of_nat_pos n Hn) as Hp. split; intros H.
    - assert (H1 : duration == of_nat n * (duration / of_nat n))
        by (field; lra).
      rewrite H1 at 1. rewrite H. field. lra.
    - rewrite <- H. field. split; lra. }
  repeat split.
  - exact Hlen.
  - exact Hnth.
  - rewrite (Hnth i) by lia. rewrite (Hnth (S i)) by exact H.
    rewrite of_nat_S. assert (Hs := Hstep ltac:(lia)). lra.
  - rewrite (Hnth i) by lia. rewrite (Hnth (S i)) by exact H.
    rewrite of_nat_S. ring.
  - apply Hiff; assumption.
  - apply Hiff; assumption.
  - intros Hint' i Hi. rewrite (Hnth i Hi).
    assert (Hn : (0 < n)%nat) by lia.
    apply (Hiff Hn) in Hint'. rewrite Hint'. field. lra.
  - apply (generate_time _ _ _ _ _ H).
  - intros Hty. apply (generate_length _ _ _ _ _ H Hty).
Qed.

End TimeVector.

Section Impulse.
Import Py SignalGenerator.
Context {E : Elementary}.
Local Open Scope Q_scope.
Local Open Scope string_scope.
Local Open Scope list_scope.

(** [argmin_from] continues a scan: [pre] is what has been read, [best]
    its first least entry, at [best_i]. *)
Lemma argmin_from_spec (x : list Q) :
  forall (pre : list Q) (best_i : nat) (best : Q),
    (best_i < length pre)%nat ->
    nth best_i pre 0 = best ->
    (forall j, (j < length pre)%nat -> best <= nth j pre 0) ->
    (forall j, (j < best_i)%nat -> best < nth j pre 0) ->
    let r := argmin_from x (length pre) best_i best in
    (r < length (pre ++ x))%nat /\
    (forall j, (j < length (pre ++ x))%nat ->
       nth r (pre ++ x) 0 <= nth j (pre ++ x) 0) /\
    (forall j, (j < r)%nat -> nth r (pre ++ x) 0 < nth j (pre ++ x) 0).
Proof.
  induction x as [| y x IH]; intros pre best_i best Hi Hb Hle Hlt; simpl.
  - rewrite app_nil_r. subst best. auto.
  - assert (Hpre : length (pre ++ [y]) = S (length pre))
      by (rewrite length_app; simpl; lia).
    replace (pre ++ y :: x) with ((pre ++ [y]) ++ x)
      by (rewrite <- app_assoc; reflexivity).
    destruct (Qltb y best) eqn:Hy.
    + apply Qltb_lt in Hy. rewrite <- Hpre. apply IH.
      * lia.
      * rewrite app_nth2, Nat.sub_diag by lia. reflexivity.
      * intros j Hj. rewrite Hpre in Hj.
        destruct (Nat.eq_dec j (length pre)) as [-> | Hne].
        -- rewrite app_nth2, Nat.sub_diag by lia. simpl. lra.
        -- rewrite app_nth1 by lia. specialize (Hle j ltac:(lia)). lra.
      * intros j Hj. rewrite app_nth1 by lia.
        specialize (Hle j Hj). lra.
    + apply Qltb_ge in Hy. rewrite <- Hpre. apply IH.
      * lia.
      * rewrite app_nth1 by lia. exact Hb.
      * intros j Hj. rewrite Hpre in Hj.
        destruct (Nat.eq_dec j (length pre)) as [-> | Hne].
        -- rewrite app_nth2, Nat.sub_diag by lia. exact Hy.
        -- rewrite app_nth1 by lia. apply Hle. lia.
      * intros j Hj. rewrite app_nth1 by lia. apply Hlt. exact Hj.
Qed.

(** On a non-empty array [argmin] returns the first index of a least
    entry. *)
Lemma argmin_spec (x : list Q) :
  x <> [] ->
  exists r,
    argmin x = Ok r /\ (r < length x)%nat /\
    (forall j, (j < length x)%nat -> nth r x 0 <= nth j x 0) /\
    (forall j, (j < r)%nat -> nth r x 0 < nth j x 0).
Proof.
  destruct x as [| y x]; [congruence | intros _].
  exists (argmin_from x 1 0 y). split; [reflexivity |].
  apply (argmin_from_spec x [y] 0%nat y); simpl.
  - lia.
  - reflexivity.
  - intros [| j] Hj; [lra | lia].
  - intros j Hj. lia.
Qed.

Lemma nth_replace_nth_eq (x : list Q) (i : nat) (v : Q) :
  (i < length x)%nat -> nth i (replace_nth x i v) 0 = v.
Proof.
  revert i; induction x as [| y x IH]; intros [| i] H; simpl in *;
    try lia; auto. apply IH. lia.
Qed.

Lemma nth_replace_nth_neq (x : list Q) (i j : nat) (v : Q) :
  j <> i -> nth j (replace_nth x i v) 0 = nth j x 0.
Proof.
  revert i j; induction x as [| y x IH]; intros [| i] [| j] H; simpl;
    try congruence; auto.
Qed.

Lemma nth_zeros_like {A : Type} (t : list A) (j : nat) :
  nth j (zeros_like t) 0 = 0.
Proof.
  unfold zeros_like. revert j; induction t as [| a t IH]; intros [| j];
    simpl; auto.
Qed.

Lemma nth_distance (t : list Q) (s : Q) (j : nat) :
  (j < length t)%nat ->
  nth j (map (fun ti => Qabs (ti - s)) t) 0 = Qabs (nth j t 0 - s).
Proof.
  intros H.
  rewrite (nth_indep _ 0 (Qabs (0 - s))) by (rewrite length_map; exact H).
  apply (map_nth (fun ti => Qabs (ti - s))).
Qed.

Lemma Forall2_map_pointwise {A : Type} (R : Q -> Q -> Prop) (f h : A -> Q)
  (l : list A) :
  (forall a, R (f a) (h a)) -> Forall2 R (map f l) (map h l).
Proof. intros H. induction l; simpl; constructor; auto. Qed.

(** C6.  On a generator with at least one sample time, "Impulse" returns
    samples that are [A] at one index [idx] and 0 at every other index;
    [idx] is the first index whose sample time is nearest to [s]; the
    result does not depend on the DC offset, while every other recognized
    type adds the offset to each of its samples. *)
Theorem impulse_samples (g : state) (kw : kwargs) :
  t g <> [] ->
  let A := get (amplitude kw) 1.0 in
  let s := get (impulse_time kw) 0.0 in
  (exists idx x,
     generate g "Impulse" kw = Ok (t g, x) /\
     length x = length (t g) /\
     (idx < length (t g))%nat /\
     (forall j, (j < length (t g))%nat ->
        Qabs (nth idx (t g) 0 - s) <= Qabs (nth j (t g) 0 - s)) /\
     (forall j, (j < idx)%nat ->
        Qabs (nth idx (t g) 0 - s) < Qabs (nth j (t g) 0 - s)) /\
     nth idx x 0 = A /\
     (forall j, j <> idx -> nth j x 0 = 0)) /\
  (forall D, generate g "Impulse" (with_dc_offset kw D)
             = generate g "Impulse" kw) /\
  (forall ty D tv x0,
     In ty SIGNAL_TYPES -> ty <> "Impulse" ->
     generate g ty (with_dc_offset kw 0) = Ok (tv, x0) ->
     exists x,
       generate g ty (with_dc_offset kw D) = Ok (tv, x) /\
       Forall2 (fun v0 v => v == v0 + D) x0 x).
Proof.
  intros Hne A s. split; [| split].
  - assert (Hd : map (fun ti => Qabs (ti - s)) (t g) <> [])
      by (destruct (t g); [congruence | discriminate]).
    destruct (argmin_spec _ Hd) as (idx & Harg & Hidx & Hmin & Hfirst).
    rewrite length_map in Hidx, Hmin.
    exists idx, (replace_nth (zeros_like (t g)) idx A).
    assert (Hz : length (zeros_like (t g)) = length (t g))
      by apply length_map.
    split; [| split; [| split; [| split; [| split; [| split]]]]].
    + unfold generate. cbn [String.eqb Ascii.eqb Bool.eqb].
      fold s. rewrite Harg. cbn [bind]. unfold setitem. rewrite Hz.
      apply Nat.ltb_lt in Hidx. rewrite Hidx. reflexivity.
    + rewrite length_replace_nth. exact Hz.
    + exact Hidx.
    + intros j Hj. specialize (Hmin j Hj).
      rewrite !nth_distance in Hmin by assumption. exact Hmin.
    + intros j Hj. specialize (Hfirst j Hj).
      rewrite !nth_distance in Hfirst by lia. exact Hfirst.
    + apply nth_replace_nth_eq. rewrite Hz. exact Hidx.
    + intros j Hj. rewrite nth_replace_nth_neq by exact Hj.
      apply nth_zeros_like.
  - intros D. reflexivity.
  - intros ty D tv x0 Hin Hty.
    simpl in Hin.
    repeat (destruct Hin as [<- | Hin]); try contradiction;
      try congruence; unfold generate;
      cbn [String.eqb Ascii.eqb Bool.eqb with_dc_offset dc_offset get
           amplitude frequency phase duty_cycle width decay_rate step_time
           center std_dev function bind];
      try (intros [= <- <-]; eexists; split; [reflexivity |];
           apply Forall2_map_pointwise; intros a; rewrite Qplus_0_r;
           reflexivity).
    destruct (get (function kw) default_function (t g)) as [v | e];
      cbn [bind try_except]; [| discriminate].
    intros [= <- <-]. eexists; split; [reflexivity |].
    apply Forall2_map_pointwise. intros a. rewrite Qplus_0_r. reflexivity.
Qed.

End Impulse.

Section EmptyTimeVector.
Import Py SignalGenerator.
Context {E : Elementary}.
Local Open Scope Q_scope.
Local Open Scope string_scope.
Local Open Scope list_scope.

Lemma init_empty (fs duration : Q) (g : state) :
  init fs duration = Ok g -> (int (fs * duration) < 1)%Z -> t g = [].
Proof.
  unfold init.
  destruct (linspace 0 duration (int (fs * duration)) false) as [tv | e] eqn:Hl;
    simpl; [| discriminate].
  intros [= <-] Hlt. simpl.
  destruct (linspace_open_length _ _ _ Hl) as [H0 Hlen].
  replace (int (fs * duration)) with 0%Z in Hlen by lia.
  destruct tv; [reflexivity | discriminate].
Qed.

(** C9, as amended.  On a generator whose time vector is empty,
    "Impulse" raises numpy's error for the argmin of an empty sequence,
    which is neither the unknown-type error nor the invalid-function
    error; the eight other types with a closed formula return the empty
    signal; "Custom Function" returns what its expression evaluates to on
    the empty time vector, plus the offset: the empty signal for the
    default expression. *)
Theorem empty_time_vector (fs duration : Q) (g : state) (kw : kwargs) :
  init fs duration = Ok g -> (int (fs * duration) < 1)%Z ->
  t g = [] /\
  generate g "Impulse" kw
  = Raise (LibraryError "attempt to get argmin of an empty sequence") /\
  (forall ty e,
     generate g "Impulse" kw <> Raise (UnknownSignalType ty) /\
     generate g "Impulse" kw <> Raise (InvalidCustomFunction e)) /\
  (forall ty,
     In ty SIGNAL_TYPES -> ty <> "Impulse" -> ty <> "Custom Function" ->
     generate g ty kw = Ok ([], [])) /\
  (generate g "Custom Function" kw
   = match get (function kw) default_function [] with
     | Ok v => Ok ([], map (fun vi => vi + get (dc_offset kw) 0.0) v)
     | Raise e => Raise (InvalidCustomFunction e)
     end) /\
  (function kw = None -> generate g "Custom Function" kw = Ok ([], [])).
Proof.
  intros Hinit Hlt. pose proof (init_empty _ _ _ Hinit Hlt) as Ht.
  assert (Himp : generate g "Impulse" kw
                 = Raise (LibraryError
                            "attempt to get argmin of an empty sequence")).
  { unfold generate. cbn [String.eqb Ascii.eqb Bool.eqb]. rewrite Ht.
    reflexivity. }
  split; [exact Ht |]. split; [exact Himp |].
  split; [intros ty e; rewrite Himp; split; discriminate |].
  split; [| split].
  - intros ty Hin H1 H2. simpl in Hin.
    repeat (destruct Hin as [<- | Hin]); try contradiction; try congruence;
      unfold generate; cbn [String.eqb Ascii.eqb Bool.eqb]; rewrite Ht;
      reflexivity.
  - unfold generate. cbn [String.eqb Ascii.eqb Bool.eqb]. rewrite Ht.
    destruct (get (function kw) default_function []); reflexivity.
  - intros Hf. unfold generate. cbn [String.eqb Ascii.eqb Bool.eqb].
    rewrite Ht, Hf. reflexivity.
Qed.

End EmptyTimeVector.

Section SignalGeneratorExamples.
Import Py SignalGenerator Examples.
Local Open Scope Q_scope.
Local Open Scope string_scope.
Local Open Scope list_scope.

(** C4, counterexample.  [SignalGenerator(10, 0.25)] has
    [int(10 * 0.25) = 2] sample times and the second one is [0.125], not
    [1 / fs = 0.1]. *)
Lemma sample_time_counterexample :
  0 < 10 /\ 0 < 0.25 /\
  exists g,
    init 10 0.25 = Ok g /\
    length (t g) = 2%nat /\
    nth 1 (t g) 0 == 0.125 /\
    ~ nth 1 (t g) 0 == of_nat 1 / 10.
Proof.
  split; [reflexivity |]. split; [reflexivity |].
  eexists. split; [reflexivity |]. split; [reflexivity |].
  split; [reflexivity | discriminate].
Qed.

(** The custom function ['np.ones(3)'] returns three samples for two
    sample times. *)
Lemma custom_function_length_mismatch :
  exists g tv x,
    init 10 0.25 = Ok g /\
    generate (E := taylor) g "Custom Function" custom_ones3 = Ok (tv, x) /\
    length tv = 2%nat /\ length x = 3%nat.
Proof. do 3 eexists. repeat split. Qed.

Lemma time_vector_and_lengths_witness :
  0 < 10 /\ 0 < 0.25 /\
  exists g, init 10 0.25 = Ok g /\ length (t g) = 2%nat.
Proof.
  split; [reflexivity |]. split; [reflexivity |].
  destruct (time_vector_and_lengths (E := taylor) 10 0.25 eq_refl eq_refl)
    as (g & Hg & Hlen & _).
  exists g. split; [exact Hg | exact Hlen].
Defined.

Lemma impulse_samples_witness :
  t three_samples <> [] /\
  exists idx x,
    generate (E := taylor) three_samples "Impulse" impulse_at_06
    = Ok (t three_samples, x) /\
    nth idx x 0 = 3 /\ (forall j, j <> idx -> nth j x 0 = 0).
Proof.
  assert (H : t three_samples <> []) by discriminate.
  split; [exact H |].
  destruct (impulse_samples (E := taylor) three_samples impulse_at_06 H)
    as ((idx & x & Hgen & _ & _ & _ & _ & HA & H0) & _).
  exists idx, x. split; [exact Hgen |]. split; [exact HA | exact H0].
Defined.

(** On [three_samples] the impulse asked for at 0.6 lands on index 1
    (time 0.5), and the offset 7 appears nowhere. *)
Example impulse_at_06_samples :
  generate (E := taylor) three_samples "Impulse" impulse_at_06
  = Ok ([0; 0.5; 1], [0; 3; 0]).
Proof. reflexivity. Qed.

(** C9, counterexample.  [SignalGenerator(1, 0.5)] has an empty time
    vector, and "Custom Function" with ['np.ones(3)'] returns three
    samples there: not the empty signal. *)
Lemma custom_function_on_empty_time_vector :
  init 1 0.5 = Ok empty_generator /\
  t empty_generator = [] /\
  In "Custom Function" SIGNAL_TYPES /\
  generate (E := taylor) empty_generator "Custom Function" custom_ones3
  = Ok ([], [1 + 0.0; 1 + 0.0; 1 + 0.0]).
Proof. repeat split. simpl. tauto. Qed.

Lemma empty_time_vector_witness :
  init 1 0.5 = Ok empty_generator /\ (int (1 * 0.5) < 1)%Z /\
  generate (E := taylor) empty_generator "Impulse" no_kwargs
  = Raise (LibraryError "attempt to get argmin of an empty sequence").
Proof.
  assert (H1 : init 1 0.5 = Ok empty_generator) by reflexivity.
  assert (H2 : (int (1 * 0.5) < 1)%Z) by reflexivity.
  split; [exact H1 |]. split; [exact H2 |].
  destruct (empty_time_vector (E := taylor) 1 0.5 empty_generator no_kwargs
              H1 H2) as (_ & H & _).
  exact H.
Defined.

End SignalGeneratorExamples.

(** * Properties of system construction *)

Section CreateSystem.
Import Py SystemAnalyzer.
Variable butter : Z -> list Q -> btype -> result (list Q * list Q).
Local Open Scope Q_scope.
Local Open Scope string_scope.
Local Open Scope list_scope.

Lemma trim_zeros_f_nil (x : list Q) :
  trim_zeros_f x = [] <-> Forall (fun c => c == 0) x.
Proof.
  induction x as [| y x IH]; simpl.
  - split; [constructor | reflexivity].
  - destruct (Qeq_bool y 0) eqn:Hy.
    + apply Qeq_bool_iff in Hy. rewrite IH. split; intros H.
      * constructor; assumption.
      * inversion H; assumption.
    + apply Qeq_bool_neq in Hy. split; [discriminate |].
      intros H. inversion H. contradiction.
Qed.

(** What is left by [trim_zeros_f] does not start with a zero. *)
Lemma trim_zeros_f_head (x : list Q) :
  trim_zeros_f x <> [] -> ~ nth 0 (trim_zeros_f x) 0 == 0.
Proof.
  induction x as [| y x IH]; simpl; [congruence |].
  destruct (Qeq_bool y 0) eqn:Hy; [exact IH |].
  intros _. simpl. apply Qeq_bool_neq. exact Hy.
Qed.

Lemma length_pos_cons {A : Type} (x d : list A) :
  (if (0 <? length x)%nat then x else d) = match x with [] => d | _ => x end.
Proof. destruct x; reflexivity. Qed.

(** A numerator or denominator text that does not evaluate fails the
    construction. *)
Lemma custom_system_eval_error (fs : Q) (kw : kwargs) (e : exn) :
  get (numerator kw) (Ok [1]) = Raise e \/
  (exists b, get (numerator kw) (Ok [1]) = Ok b) /\
  get (denominator kw) (Ok [1]) = Raise e ->
  create_system butter fs "Custom System" kw
  = Raise (InvalidSystemCoefficients e).
Proof.
  unfold create_system. cbn [String.eqb Ascii.eqb Bool.eqb].
  intros [-> | [[b ->] ->]]; reflexivity.
Qed.

(** C1, as amended.  With the numerator and denominator texts evaluated
    to the arrays [b] and [a], "Custom System" fails, with the
    invalid-coefficients error, when [b] or [a] is empty as written or
    when the trimmed denominator is not empty and starts with a
    coefficient of magnitude below 1e-12.  Otherwise it succeeds: only
    exact zeros are trimmed, a numerator of zeros becomes [0.0] and a
    denominator of zeros becomes [1.0]. *)
Theorem custom_system_result (fs : Q) (kw : kwargs) (b a : list Q) :
  get (numerator kw) (Ok [1]) = Ok b ->
  get (denominator kw) (Ok [1]) = Ok a ->
  let b' := trim_zeros_f b in
  let a' := trim_zeros_f a in
  let r := create_system butter fs "Custom System" kw in
  (b' = [] <-> Forall (fun c => c == 0) b) /\
  (a' = [] <-> Forall (fun c => c == 0) a) /\
  (a' <> [] -> ~ nth 0 a' 0 == 0) /\
  (b = [] \/ a = [] -> r = Raise (InvalidSystemCoefficients EmptyCoefficientArray)) /\
  (b <> [] -> a <> [] -> a' <> [] -> Qabs (nth 0 a' 0) < 1e-12 ->
   r = Raise (InvalidSystemCoefficients ZeroLeadingDenominator)) /\
  (b <> [] -> a <> [] -> a' = [] \/ 1e-12 <= Qabs (nth 0 a' 0) ->
   r = Ok (match b' with [] => [0.0] | _ => b' end,
           match a' with [] => [1.0] | _ => a' end)).
Proof.
  intros Hb Ha b' a' r.
  split; [apply trim_zeros_f_nil |]. split; [apply trim_zeros_f_nil |].
  split; [apply trim_zeros_f_head |].
  subst r. unfold create_system. cbn [String.eqb Ascii.eqb Bool.eqb].
  rewrite Hb, Ha. cbn [bind]. unfold custom_coefficients.
  fold b' a'. rewrite !length_pos_cons.
  split; [| split].
  - intros [-> | ->]; simpl; [reflexivity |].
    rewrite orb_true_r. reflexivity.
  - intros Hbn Han Ha' Hsmall.
    destruct b as [| b0 b]; [congruence |].
    destruct a as [| a0 a]; [congruence |]. cbn [length Nat.eqb orb].
    destruct a' as [| a0' a'']; [congruence |].
    apply Qltb_lt in Hsmall. rewrite Hsmall. reflexivity.
  - intros Hbn Han Hok.
    destruct b as [| b0 b]; [congruence |].
    destruct a as [| a0 a]; [congruence |]. cbn [length Nat.eqb orb].
    destruct a' as [| a0' a''].
    + reflexivity.
    + destruct Hok as [Hnil | Hbig]; [discriminate |].
      apply Qltb_ge in Hbig. rewrite Hbig. reflexivity.
Qed.

(** C2, as amended.  "Band-pass Filter" first raises [lowcut] to at
    least 0.1 and lowers [highcut] to at most 0.99 times Nyquist; when
    the clamped edges are in order they are the band of the design, and
    only when they are not is the band (5, 15) substituted.  The design
    routine receives the band divided by Nyquist; a zero sampling rate
    fails with a division by zero. *)
Theorem band_pass_band (fs : Q) (kw : kwargs) :
  let nyquist := fs / 2 in
  let lowcut := get (lowcut kw) 5.0 in
  let highcut := get (highcut kw) 15.0 in
  let order := int (get (order kw) 4) in
  let lo := max lowcut 0.1 in
  let hi := min highcut (nyquist * 0.99) in
  let r := create_system butter fs "Band-pass Filter" kw in
  (0.1 <= lowcut -> lo = lowcut) /\
  (lowcut < 0.1 -> lo = 0.1) /\
  (highcut <= nyquist * 0.99 -> hi = highcut) /\
  (nyquist * 0.99 < highcut -> hi = nyquist * 0.99) /\
  (~ nyquist == 0 -> lo < hi ->
   r = butter order [lo / nyquist; hi / nyquist] band) /\
  (~ nyquist == 0 -> hi <= lo ->
   r = butter order [5.0 / nyquist; 15.0 / nyquist] band) /\
  (nyquist == 0 -> r = Raise ZeroDivisionError).
Proof.
  intros nyquist lowcut highcut order lo hi r.
  assert (Hr : r = let '(l, h) := valid_band nyquist lowcut highcut in
                   bind (truediv l nyquist) (fun low =>
                   bind (truediv h nyquist) (fun high =>
                   butter order [low; high] band))) by reflexivity.
  assert (Hdiv : forall x, ~ nyquist == 0 -> truediv x nyquist = Ok (x / nyquist)).
  { intros x Hn. unfold truediv.
    destruct (Qeq_bool nyquist 0) eqn:E; [| reflexivity].
    apply Qeq_bool_iff in E. contradiction. }
  assert (Hdiv0 : forall x, nyquist == 0 -> truediv x nyquist = Raise ZeroDivisionError).
  { intros x Hn. unfold truediv. apply Qeq_bool_iff in Hn. rewrite Hn.
    reflexivity. }
  repeat split.
  - intros H. unfold lo, max. apply Qltb_ge in H. rewrite H. reflexivity.
  - intros H. unfold lo, max. apply Qltb_lt in H. rewrite H. reflexivity.
  - intros H. unfold hi, min. apply Qltb_ge in H. rewrite H. reflexivity.
  - intros H. unfold hi, min. apply Qltb_lt in H. rewrite H. reflexivity.
  - intros Hn Hlt. rewrite Hr. unfold valid_band. fold lo hi.
    destruct (Qle_bool hi lo) eqn:E.
    + apply Qle_bool_iff in E. exfalso. lra.
    + rewrite !Hdiv by exact Hn. reflexivity.
  - intros Hn Hle. rewrite Hr. unfold valid_band. fold lo hi.
    apply Qle_bool_iff in Hle. rewrite Hle.
    rewrite !Hdiv by exact Hn. reflexivity.
  - intros Hn. rewrite Hr.
    destruct (valid_band nyquist lowcut highcut) as [l h].
    rewrite Hdiv0 by exact Hn. reflexivity.
Qed.

End CreateSystem.

Section CreateSystemExamples.
Import Py SystemAnalyzer Examples.
Local Open Scope Q_scope.
Local Open Scope string_scope.
Local Open Scope list_scope.

(** C1, counterexample.  The denominator text '[0]' is empty once its
    zero is trimmed, and the construction succeeds with the denominator
    [1.0]. *)
Lemma zero_denominator_counterexample :
  trim_zeros_f [0] = [] /\
  create_system echo_butter 1000 "Custom System" (denominator_kwargs [0])
  = Ok ([1], [1.0]).
Proof. split; reflexivity. Qed.

(** The denominator text '[0, 1]' is trimmed to [1] and succeeds. *)
Example leading_zero_denominator :
  create_system echo_butter 1000 "Custom System" (denominator_kwargs [0; 1])
  = Ok ([1], [1]).
Proof. reflexivity. Qed.

(** The denominator text '[]' fails, and so does a leading coefficient
    of 1e-13. *)
Example empty_denominator :
  create_system echo_butter 1000 "Custom System" (denominator_kwargs [])
  = Raise (InvalidSystemCoefficients EmptyCoefficientArray).
Proof. reflexivity. Qed.

Example tiny_denominator :
  create_system echo_butter 1000 "Custom System" (denominator_kwargs [1e-13; 1])
  = Raise (InvalidSystemCoefficients ZeroLeadingDenominator).
Proof. reflexivity. Qed.

Lemma custom_system_result_witness :
  get (numerator (denominator_kwargs [0])) (Ok [1]) = Ok [1] /\
  get (denominator (denominator_kwargs [0])) (Ok [1]) = Ok [0] /\
  create_system echo_butter 1000 "Custom System" (denominator_kwargs [0])
  = Ok ([1], [1.0]).
Proof.
  split; [reflexivity |]. split; [reflexivity |].
  destruct (custom_system_result echo_butter 1000 (denominator_kwargs [0])
              [1] [0] eq_refl eq_refl) as (_ & _ & _ & _ & _ & H).
  apply H; [discriminate | discriminate | left; reflexivity].
Defined.

(** C2, counterexample.  At [fs = 1000] the request [lowcut = 0.05],
    [highcut = 100] violates [0.1 <= lowcut]; the design gets the band
    (0.1, 100), that is 0.1/500 and 100/500, not (5, 15). *)
Lemma band_pass_clamp_counterexample :
  ~ (0.1 <= 0.05 /\ 0.05 < 100 /\ 100 <= 0.99 * (1000 / 2)) /\
  valid_band (1000 / 2) 0.05 100 = (0.1, 100) /\
  create_system echo_butter 1000 "Band-pass Filter" (band_kwargs 0.05 100)
  = Ok ([4], [0.1 / (1000 / 2); 100 / (1000 / 2)]) /\
  ~ 0.1 == 5.0.
Proof.
  split; [intros [H _]; apply H; reflexivity |].
  split; [reflexivity |]. split; [reflexivity | discriminate].
Qed.

(** The inverted band of the specification, [lowcut = 50],
    [highcut = 10], is replaced by (5, 15). *)
Example band_pass_inverted :
  create_system echo_butter 1000 "Band-pass Filter" (band_kwargs 50 10)
  = Ok ([4], [5.0 / (1000 / 2); 15.0 / (1000 / 2)]).
Proof. reflexivity. Qed.

End CreateSystemExamples.

(** * Properties of the responses *)

Section Filtering.
Import Py SystemAnalyzer.
Local Open Scope Q_scope.
Local Open Scope string_scope.
Local Open Scope list_scope.

Lemma lfilter_out_length (b a x : list Q) (n : nat) :
  length (lfilter_out b a x n) = n.
Proof.
  induction n as [| n IH]; simpl; [reflexivity |].
  rewrite length_app, IH. simpl. lia.
Qed.

(** Output sample [n] obeys the difference equation, whatever the number
    of samples computed after it. *)
Lemma nth_lfilter_out (b a x : list Q) (m n : nat) :
  (n < m)%nat ->
  nth n (lfilter_out b a x m) 0
  = (taps b x n 0 - taps a (lfilter_out b a x n) n 1) / nth 0 a 0.
Proof.
  induction m as [| m IH]; intros H; [lia |]. simpl.
  destruct (Nat.eq_dec n m) as [-> | Hne].
  - rewrite app_nth2 by (rewrite lfilter_out_length; lia).
    rewrite lfilter_out_length, Nat.sub_diag. reflexivity.
  - rewrite app_nth1 by (rewrite lfilter_out_length; lia).
    apply IH. lia.
Qed.

Lemma sum_constant (f : nat -> Q) (c : Q) (len : nat) :
  forall from,
    (forall k, (from <= k < from + len)%nat -> f k == c) ->
    fold_right Qplus 0 (map f (seq from len)) == of_nat len * c.
Proof.
  induction len as [| len IH]; intros from H; simpl.
  - unfold of_nat. simpl. ring.
  - rewrite (H from) by lia. rewrite (IH (S from)) by (intros k Hk; apply H; lia).
    rewrite of_nat_S. ring.
Qed.

Lemma nth_repeat_lt (v : Q) (L i : nat) : (i < L)%nat -> nth i (repeat v L) 0 = v.
Proof.
  revert i; induction L as [| L IH]; intros [| i] H; simpl; try lia; auto.
  apply IH. lia.
Qed.

Lemma int_inject_Z (z : Z) : int (inject_Z z) = z.
Proof. unfold int, inject_Z. simpl. apply Z.quot_1_r. Qed.

(** C8.  For a window [N >= 1], "Moving Average" builds [b] as [N]
    copies of [1/N] and [a = [1]]; applied to [L] samples of the
    constant [v], the filter returns [L] samples, and every output
    sample of index [n >= N - 1] equals [v]. *)
Theorem moving_average_constant
  (butter : Z -> list Q -> btype -> result (list Q * list Q))
  (fs : Q) (kw : kwargs) (N : Z) (v : Q) (L : nat) :
  (1 <= N)%Z ->
  window_size kw = Some (inject_Z N) ->
  (Z.to_nat N <= L)%nat ->
  exists b a y,
    create_system butter fs "Moving Average" kw = Ok (b, a) /\
    b = map (fun one => one / inject_Z N) (ones (Z.to_nat N)) /\
    a = [1.0] /\
    apply_system b a (repeat v L) = Ok y /\
    length y = L /\
    forall n, (Z.to_nat N - 1 <= n < L)%nat -> nth n y 0 == v.
Proof.
  intros HN Hw HL.
  set (b := map (fun one => one / inject_Z N) (ones (Z.to_nat N))).
  exists b, [1.0], (lfilter_out b [1.0] (repeat v L) L).
  assert (Hlenb : length b = Z.to_nat N)
    by (unfold b, ones; rewrite length_map, repeat_length; reflexivity).
  split; [| split; [reflexivity | split; [reflexivity | split; [| split]]]].
  - unfold create_system. cbn [String.eqb Ascii.eqb Bool.eqb].
    rewrite Hw. cbn [get]. rewrite int_inject_Z.
    destruct (Z.ltb_spec N 1); [lia | reflexivity].
  - unfold apply_system, lfilter. rewrite repeat_length.
    rewrite Hlenb.
    destruct L as [| L]; [lia |].
    destruct (Z.to_nat N) as [| N'] eqn:HN'; [lia |]. reflexivity.
  - apply lfilter_out_length.
  - intros n [Hn1 Hn2]. rewrite nth_lfilter_out by exact Hn2.
    assert (Hfb : forall y, taps [1.0] y n 1 = 0) by reflexivity.
    rewrite Hfb. unfold taps. rewrite Hlenb, Nat.sub_0_r.
    rewrite (sum_constant _ (1 / inject_Z N * v)).
    + rewrite of_nat_to_nat by lia. cbn [nth]. field.
      change 0 with (inject_Z 0). rewrite inject_Z_injective. lia.
    + intros k Hk. unfold tap.
      destruct (Nat.leb_spec k n); [| lia].
      rewrite nth_repeat_lt by lia.
      unfold b. rewrite (nth_indep _ 0 (1 / inject_Z N))
        by (rewrite length_map; unfold ones; rewrite repeat_length; lia).
      rewrite (map_nth (fun one => one / inject_Z N) (ones (Z.to_nat N)) 1).
      unfold ones. rewrite nth_repeat. reflexivity.
Qed.

End Filtering.

Section ResponseFacts.
Import Py SystemAnalyzer.
Variable dimpulse : list Q -> list Q -> Q -> list Q -> result (list Q * list Q).
Variable dstep : list Q -> list Q -> Q -> list Q -> result (list Q * list Q).
Variable freqz : list Q -> list Q -> Z -> Q -> result (list Q * list complex).
Local Open Scope Q_scope.
Local Open Scope string_scope.
Local Open Scope list_scope.

(** The grid built by [linspace] with its end point, from 0. *)
Lemma linspace_closed_nth (stop : Q) (num : Z) (w : list Q) (i : nat) :
  linspace 0 stop num true = Ok w -> (i < Z.to_nat num)%nat ->
  nth i w 0 == (if (1 <? num)%Z then of_nat i * (stop / inject_Z (num - 1))
                else 0).
Proof.
  unfold linspace. destruct (Z.ltb_spec num 0); [discriminate |].
  intros [= <-] Hi. rewrite nth_map_seq by exact Hi. cbn [andb].
  destruct (Z.ltb_spec 1 num) as [H1 | H1].
  - assert (Hn : (1 <? Z.to_nat num)%nat = true) by (apply Nat.ltb_lt; lia).
    rewrite Hn. destruct (Z.ltb_spec 0 (num - 1)); [| lia].
    destruct (Nat.eqb_spec i (Z.to_nat num - 1)) as [-> | Hne]; cbn [andb].
    + unfold of_nat. rewrite Nat2Z.inj_sub, Z2Nat.id by lia.
      change (Z.of_nat 1) with 1%Z. field.
      change 0 with (inject_Z 0). rewrite inject_Z_injective. lia.
    + unfold Qdiv. ring.
  - assert (Hn : (1 <? Z.to_nat num)%nat = false) by (apply Nat.ltb_ge; lia).
    rewrite Hn. destruct (Z.ltb_spec 0 (num - 1)); [lia |].
    assert (i = 0%nat) as -> by lia. unfold of_nat. simpl. ring.
Qed.

Lemma linspace_closed_bounds (stop : Q) (num : Z) (w : list Q) :
  linspace 0 stop num true = Ok w -> 0 <= stop ->
  (forall i, (i < length w)%nat -> 0 <= nth i w 0 <= stop) /\
  (forall i, (S i < length w)%nat -> nth i w 0 <= nth (S i) w 0).
Proof.
  intros Hl Hs.
  assert (Hlen : length w = Z.to_nat num).
  { revert Hl. unfold linspace. destruct (Z.ltb_spec num 0); [discriminate |].
    intros [= <-]. rewrite length_map, length_seq. reflexivity. }
  rewrite Hlen.
  destruct (Z.ltb_spec 1 num) as [H1 | H1].
  - assert (Hd : 0 < inject_Z (num - 1))
      by (change 0 with (inject_Z 0); rewrite <- Zlt_Qlt; lia).
    assert (Hstep : 0 <= stop / inject_Z (num - 1))
      by (apply Qle_shift_div_l; [exact Hd | lra]).
    assert (Hv : forall i, (i < Z.to_nat num)%nat ->
                nth i w 0 == of_nat i * (stop / inject_Z (num - 1))).
    { intros i Hi. rewrite (linspace_closed_nth _ _ _ _ Hl Hi).
      destruct (Z.ltb_spec 1 num); [reflexivity | lia]. }
    split.
    + intros i Hi. rewrite (Hv i Hi).
      assert (H0 : 0 <= of_nat i)
        by (unfold of_nat; change 0 with (inject_Z 0); rewrite <- Zle_Qle; lia).
      assert (Hi' : of_nat i <= inject_Z (num - 1))
        by (unfold of_nat; rewrite <- Zle_Qle; lia).
      split; [apply Qmult_le_0_compat; assumption |].
      assert (Hstop : stop == inject_Z (num - 1) * (stop / inject_Z (num - 1)))
        by (field; lra).
      rewrite Hstop at 2. apply Qmult_le_compat_r; assumption.
    + intros i Hi. rewrite (Hv i) by lia. rewrite (Hv (S i) Hi).
      rewrite of_nat_S. lra.
  - split.
    + intros i Hi. rewrite (linspace_closed_nth _ _ _ _ Hl Hi).
      destruct (Z.ltb_spec 1 num); [lia |]. lra.
    + intros i Hi. lia.
Qed.

Lemma nth_full_like {A : Type} (t : list A) (v : Q) (j : nat) :
  (j < length t)%nat -> nth j (full_like t v) 0 = v.
Proof.
  unfold full_like. revert j; induction t as [| a t IH]; intros [| j] H;
    simpl in *; try lia; auto. apply IH. lia.
Qed.

(** C5, as amended.  For [b = [b0]] and [a = [a0]] with [a0] not zero:
    on every time vector with at least one sample time the impulse
    response is [b0 / a0] at sample 0 and 0 at every other sample; on
    the empty time vector it raises an index error; the step response is
    [b0 / a0] at every sample of any time vector.  Both responses have
    the length of [t]. *)
Theorem static_gain_responses (fs b0 a0 : Q) (t : list Q) :
  ~ a0 == 0 ->
  (t <> [] ->
   exists h,
     impulse_response dimpulse fs [b0] [a0] (Some t) = Ok (t, h) /\
     length h = length t /\
     nth 0 h 0 = b0 / a0 /\
     forall j, j <> 0%nat -> nth j h 0 = 0) /\
  (t = [] ->
   impulse_response dimpulse fs [b0] [a0] (Some t) = Raise IndexError) /\
  (exists s,
     step_response dstep fs [b0] [a0] (Some t) = Ok (t, s) /\
     length s = length t /\
     forall j, (j < length t)%nat -> nth j s 0 = b0 / a0).
Proof.
  intros _. split; [| split].
  - intros Hne. exists (replace_nth (zeros_like t) 0 (b0 / a0)).
    assert (Hz : length (zeros_like t) = length t) by apply length_map.
    assert (Hpos : (0 < length t)%nat)
      by (destruct t; [congruence | simpl; lia]).
    split; [| split; [| split]].
    + unfold impulse_response. cbn [bind length Nat.eqb andb nth].
      unfold setitem. rewrite Hz. apply Nat.ltb_lt in Hpos. rewrite Hpos.
      reflexivity.
    + rewrite length_replace_nth. exact Hz.
    + apply nth_replace_nth_eq. rewrite Hz. exact Hpos.
    + intros j Hj. rewrite nth_replace_nth_neq by exact Hj.
      apply nth_zeros_like.
  - intros ->. reflexivity.
  - exists (full_like t (b0 / a0)). split; [reflexivity |].
    split; [apply length_map |].
    intros j Hj. apply nth_full_like. exact Hj.
Qed.

(** The two paths of [frequency_response].  When [freqz] returns a grid
    and a response, the result is that grid and the response with every
    part made finite, sample for sample.  When [freqz] raises, the
    fallback builds its own grid: [n_points // 2 + 1] frequencies,
    non-decreasing from 0 to [fs / 2], with an all-zero response of that
    length; it raises in turn when [n_points // 2 + 1] is negative. *)
Theorem frequency_response_paths (fs : Q) (b a : list Q) (n_points : Z) :
  (forall w h,
     freqz b a n_points fs = Ok (w, h) ->
     frequency_response freqz fs b a n_points = Ok (w, nan_to_num h) /\
     length (nan_to_num h) = length h) /\
  (forall e,
     freqz b a n_points fs = Raise e -> (0 <= n_points / 2 + 1)%Z ->
     exists w,
       frequency_response freqz fs b a n_points
       = Ok (w, map (fun _ => czero) w) /\
       length w = Z.to_nat (n_points / 2 + 1) /\
       (0 <= fs ->
        (forall i, (i < length w)%nat -> 0 <= nth i w 0 <= fs / 2) /\
        (forall i, (S i < length w)%nat -> nth i w 0 <= nth (S i) w 0))) /\
  (forall e,
     freqz b a n_points fs = Raise e -> (n_points / 2 + 1 < 0)%Z ->
     exists e', frequency_response freqz fs b a n_points = Raise e').
Proof.
  unfold frequency_response. split; [| split].
  - intros w h ->. split; [reflexivity |]. apply length_map.
  - intros e -> Hn. cbn [bind try_except].
    destruct (linspace 0 (fs / 2) (n_points / 2 + 1) true) as [w | e'] eqn:Hl.
    2:{ unfold linspace in Hl.
        destruct (Z.ltb_spec (n_points / 2 + 1) 0); [lia | discriminate]. }
    exists w. split; [reflexivity |]. split.
    + revert Hl. unfold linspace.
      destruct (Z.ltb_spec (n_points / 2 + 1) 0); [discriminate |].
      intros [= <-]. rewrite length_map, length_seq. reflexivity.
    + intros Hfs. apply (linspace_closed_bounds _ _ _ Hl).
      apply Qle_shift_div_l; [reflexivity | lra].
  - intros e -> Hn. cbn [bind try_except].
    unfold linspace. destruct (Z.ltb_spec (n_points / 2 + 1) 0); [| lia].
    eexists. reflexivity.
Qed.

End ResponseFacts.

Section ResponseExamples.
Import Py SystemAnalyzer Examples.
Local Open Scope Q_scope.
Local Open Scope string_scope.
Local Open Scope list_scope.

(** C5, counterexample.  With [b = [2]], [a = [1]] and the empty time
    vector, the impulse response raises instead of returning an array. *)
Lemma static_gain_empty_time_counterexample :
  ~ 1 == 0 /\
  impulse_response failing_response 1000 [2] [1] (Some []) = Raise IndexError.
Proof. split; [discriminate | reflexivity]. Qed.

Lemma static_gain_responses_witness :
  ~ 1 == 0 /\
  impulse_response failing_response 1000 [2] [1] (Some [0; 0.001; 0.002])
  = Ok ([0; 0.001; 0.002], [2 / 1; 0; 0]) /\
  exists s,
    step_response failing_response 1000 [2] [1] (Some [0; 0.001; 0.002])
    = Ok ([0; 0.001; 0.002], s) /\
    forall j, (j < 3)%nat -> nth j s 0 = 2 / 1.
Proof.
  assert (H : ~ 1 == 0) by discriminate.
  split; [exact H |]. split; [reflexivity |].
  destruct (static_gain_responses failing_response failing_response
              1000 2 1 [0; 0.001; 0.002] H) as (_ & _ & s & Hs & _ & Hj).
  exists s. split; [exact Hs | exact Hj].
Defined.

(** C3, at its failing input: a denominator on which [freqz] raises,
    with the default 1024 points at [fs = 1000].  The fallback returns
    513 frequencies, from 0 to [fs / 2] included, and 513 zeros, where
    1024 are asked for. *)
Example fallback_grid_1024 :
  exists w h,
    frequency_response failing_freqz 1000 [1] [] 1024 = Ok (w, h) /\
    length w = 513%nat /\ length h = 513%nat /\
    nth 0 w 0 == 0 /\ nth 512 w 0 == 500 /\
    Forall (fun z => z = czero) h.
Proof.
  eexists. eexists. split; [reflexivity |].
  split; [reflexivity |]. split; [reflexivity |].
  split; [reflexivity |]. split; [reflexivity |].
  apply Forall_forall. intros z Hz. apply in_map_iff in Hz.
  destruct Hz as (x & Hx & _). symmetry. exact Hx.
Qed.

Lemma moving_average_constant_witness :
  (1 <= 3)%Z /\
  window_size (window_kwargs 3) = Some (inject_Z 3) /\
  (Z.to_nat 3 <= 5)%nat /\
  exists b a y,
    create_system echo_butter 1000 "Moving Average" (window_kwargs 3)
    = Ok (b, a) /\
    apply_system b a (repeat 7 5) = Ok y /\
    forall n, (2 <= n < 5)%nat -> nth n y 0 == 7.
Proof.
  assert (H1 : (1 <= 3)%Z) by lia.
  assert (H2 : window_size (window_kwargs 3) = Some (inject_Z 3))
    by reflexivity.
  assert (H3 : (Z.to_nat 3 <= 5)%nat) by (simpl; lia).
  split; [exact H1 |]. split; [exact H2 |]. split; [exact H3 |].
  destruct (moving_average_constant echo_butter 1000 (window_kwargs 3)
              3 7 5 H1 H2 H3) as (b & a & y & Hc & _ & _ & Ha & _ & Hn).
  exists b, a, y. split; [exact Hc |]. split; [exact Ha | exact Hn].
Defined.

(** The start-up transient of that run: the first two outputs are 7/3
    and 14/3, the other three are 7. *)
Example moving_average_transient :
  exists y,
    apply_system [1 / 3; 1 / 3; 1 / 3] [1.0] (repeat 7 5) = Ok y /\
    Forall2 Qeq y [7 / 3; 14 / 3; 7; 7; 7].
Proof.
  eexists. split; [reflexivity |].
  repeat constructor.
Qed.

End ResponseExamples.

(** * Properties of the Z-transform evaluator *)

Section ZTransformFacts.
Import ZTransform.
Local Open Scope Q_scope.
Local Open Scope list_scope.

Lemma is_zero_iff (z : complex) : is_zero z = true <-> ceq z c0.
Proof.
  unfold is_zero, ceq. rewrite andb_true_iff, !Qeq_bool_iff. reflexivity.
Qed.

(** At [z = 0] every term after the first is not finite. *)
Lemma series_from_zero (z : complex) (c : list Q) (k : nat) :
  is_zero z = true -> c <> [] -> series_from z c (S k) = None.
Proof.
  intros Hz Hc. destruct c as [| ck c]; [congruence |].
  simpl. rewrite Hz. reflexivity.
Qed.


(** Away from [z = 0] every sum is a finite number. *)
Lemma series_from_nonzero (z : complex) (c : list Q) :
  is_zero z = false -> forall k, exists s, series_from z c k = Some s.
Proof.
  intros Hz. induction c as [| ck c IH]; intros k; simpl.
  - eexists; reflexivity.
  - destruct (IH (S k)) as [s ->].
    destruct k; simpl; [| rewrite Hz]; eexists; reflexivity.
Qed.

(** At [z = 0] the leaky integrator [b = [1]], [a = [1, -0.99]] has no
    finite value; at [z = 1] the denominator [[1, -1]] sums to zero. *)
Example evaluate_at_origin : evaluate (0, 0) [1] [1; - 0.99] = None.
Proof. reflexivity. Qed.

Example evaluate_at_pole :
  (exists den, series (1, 0) [1; - 1] = Some den /\ ceq den c0) /\
  evaluate (1, 0) [1] [1; - 1] = None.
Proof.
  split; [| reflexivity].
  eexists. split; [reflexivity |]. split; reflexivity.
Qed.

End ZTransformFacts.

(** * The Z-transform evaluator at a float or an int *)

Section ZTransformFloatFacts.
Import Py SystemAnalyzer ZTransformFloat.
Local Open Scope Q_scope.
Local Open Scope list_scope.










(** With two coefficients in [b] the same point gives NaN; at [z = 1]
    the denominator [[1, -1]] sums to zero and the value is an infinity;
    the int [z = 2] raises as soon as there are two coefficients. *)
Example float_zero_numerator : evaluate 0 [1; 1] [1; - 0.99] = NaN.
Proof. reflexivity. Qed.

Example float_pole : evaluate 1 [1] [1; - 1] = PosInf.
Proof. reflexivity. Qed.

Example int_point :
  evaluate_int 2 [1] [1; - 0.5] = ValueError_negative_integer_power.
Proof. reflexivity. Qed.

End ZTransformFloatFacts.

(** * Properties of the Fourier transform *)

Section FourierFacts.
Import Reals Lra.
Import Py FourierTransform.
Local Open Scope R_scope.
Local Open Scope list_scope.
Lemma C_eq (z w : C) : fst z = fst w -> snd z = snd w -> z = w.
Proof. destruct z, w; simpl; intros -> ->; reflexivity. Qed.

Lemma Csum_ext (f g : nat -> C) (n : nat) :
  (forall i, (i < n)%nat -> f i = g i) -> Csum f n = Csum g n.
Proof.
  induction n as [| n IH]; intros H; simpl; [reflexivity |].
  rewrite IH by (intros i Hi; apply H; lia). rewrite H by lia. reflexivity.
Qed.

Lemma Csum_add (f g : nat -> C) (n : nat) :
  Csum (fun i => Cadd (f i) (g i)) n = Cadd (Csum f n) (Csum g n).
Proof.
  induction n as [| n IH]; simpl.
  - apply C_eq; simpl; ring.
  - rewrite IH. apply C_eq; simpl; ring.
Qed.

Lemma Csum_zero (n : nat) : Csum (fun _ => C0) n = C0.
Proof.
  induction n as [| n IH]; simpl; [reflexivity |].
  rewrite IH. apply C_eq; simpl; ring.
Qed.

Lemma Csum_mul_r (f : nat -> C) (z : C) (n : nat) :
  Cmul (Csum f n) z = Csum (fun i => Cmul (f i) z) n.
Proof.
  induction n as [| n IH]; simpl.
  - apply C_eq; simpl; ring.
  - rewrite <- IH. apply C_eq; simpl; ring.
Qed.

Lemma Csum_mul_l (f : nat -> C) (z : C) (n : nat) :
  Cmul z (Csum f n) = Csum (fun i => Cmul z (f i)) n.
Proof.
  induction n as [| n IH]; simpl.
  - apply C_eq; simpl; ring.
  - rewrite <- IH. apply C_eq; simpl; ring.
Qed.

Lemma Csum_swap (f : nat -> nat -> C) (n m : nat) :
  Csum (fun i => Csum (fun j => f i j) m) n
  = Csum (fun j => Csum (fun i => f i j) n) m.
Proof.
  induction n as [| n IH]; simpl.
  - symmetry. apply Csum_zero.
  - rewrite IH. symmetry. apply Csum_add.
Qed.

Lemma Csum_single (f : nat -> C) (n N : nat) :
  (n < N)%nat -> (forall m, (m < N)%nat -> m <> n -> f m = C0) ->
  Csum f N = f n.
Proof.
  induction N as [| N IH]; intros Hn H; [lia |]. simpl.
  destruct (Nat.eq_dec n N) as [-> | Hne].
  - rewrite (Csum_ext f (fun _ => C0)) by (intros i Hi; apply H; lia).
    rewrite Csum_zero. apply C_eq; simpl; ring.
  - rewrite IH by (try lia; intros m Hm Hmn; apply H; lia).
    rewrite (H N) by lia. apply C_eq; simpl; ring.
Qed.

Lemma cis_add (a b : R) : Cmul (cis a) (cis b) = cis (a + b).
Proof.
  unfold Cmul, cis. simpl. rewrite cos_plus, sin_plus.
  apply C_eq; simpl; ring.
Qed.

Lemma cis_turns (k : nat) : cis (2 * PI * INR k) = (1, 0).
Proof.
  unfold cis.
  replace (2 * PI * INR k) with (0 + 2 * INR k * PI) by ring.
  rewrite cos_period, sin_period, cos_0, sin_0. reflexivity.
Qed.

Lemma cis_neg_turns (k : nat) : cis (- (2 * PI * INR k)) = (1, 0).
Proof.
  unfold cis. rewrite cos_neg, sin_neg.
  pose proof (cis_turns k) as H. unfold cis in H.
  injection H as -> ->. f_equal. ring.
Qed.

(** The geometric sum, multiplied by [z - 1]. *)
Lemma geometric (theta : R) (K : nat) :
  Cmul (Cadd (cis theta) (-1, 0)) (Csum (fun k => cis (INR k * theta)) K)
  = Cadd (cis (INR K * theta)) (-1, 0).
Proof.
  induction K as [| K IH].
  - simpl. rewrite Rmult_0_l. unfold cis. rewrite cos_0, sin_0.
    apply C_eq; simpl; ring.
  - change (Csum (fun k => cis (INR k * theta)) (S K))
      with (Cadd (Csum (fun k => cis (INR k * theta)) K) (cis (INR K * theta))).
    rewrite S_INR.
    replace ((INR K + 1) * theta) with (theta + INR K * theta) by ring.
    rewrite <- cis_add.
    assert (Hd : forall a s c : C, Cmul a (Cadd s c) = Cadd (Cmul a s) (Cmul a c))
      by (intros; apply C_eq; simpl; ring).
    rewrite Hd, IH. apply C_eq; simpl; ring.
Qed.

Lemma Cmul_cancel (w s : C) : w <> C0 -> Cmul w s = C0 -> s = C0.
Proof.
  destruct w as [a b], s as [c d]. unfold Cmul, C0. simpl.
  intros Hw [= H1 H2].
  assert (Hn : 0 < a * a + b * b).
  { destruct (Req_dec a 0) as [-> | Ha].
    - destruct (Req_dec b 0) as [-> | Hb]; [congruence |].
      pose proof (Rsqr_pos_lt b Hb) as Hp. unfold Rsqr in Hp. nra.
    - pose proof (Rsqr_pos_lt a Ha) as Hp. unfold Rsqr in Hp. nra. }
  assert (Hc : (a * a + b * b) * c = 0).
  { replace ((a * a + b * b) * c)
      with (a * (a * c - b * d) + b * (a * d + b * c)) by ring.
    rewrite H1, H2. ring. }
  assert (Hd : (a * a + b * b) * d = 0).
  { replace ((a * a + b * b) * d)
      with (a * (a * d + b * c) - b * (a * c - b * d)) by ring.
    rewrite H1, H2. ring. }
  apply Rmult_integral in Hc, Hd.
  destruct Hc as [Hc | ->]; [lra |]. destruct Hd as [Hd | ->]; [lra |].
  reflexivity.
Qed.

Lemma cis_not_one (r : R) :
  (0 < r < 1 \/ -1 < r < 0) -> Cadd (cis (2 * PI * r)) (-1, 0) <> C0.
Proof.
  intros Hr. unfold cis, Cadd, C0. simpl. intros [= Hc _].
  replace (2 * PI * r) with (2 * (PI * r)) in Hc by ring.
  rewrite cos_2a_sin in Hc.
  assert (Hs : sin (PI * r) <> 0).
  { pose proof PI_RGT_0 as Hpi. destruct Hr as [[H0 H1] | [H0 H1]].
    - apply Rgt_not_eq. apply sin_gt_0; nra.
    - apply Rlt_not_eq. apply sin_lt_0_var; nra. }
  apply Hs. nra.
Qed.

Lemma Csum_ones (N : nat) : Csum (fun _ => (1, 0)) N = (INR N, 0).
Proof.
  induction N as [| N IH]; [reflexivity |].
  change (Csum (fun _ : nat => (1, 0)) (S N))
    with (Cadd (Csum (fun _ : nat => (1, 0)) N) (1, 0)).
  rewrite IH, S_INR. apply C_eq; simpl; ring.
Qed.

(** Orthogonality of the complex exponentials of the transform. *)
Lemma roots_of_unity_sum (N n m : nat) :
  (n < N)%nat -> (m < N)%nat ->
  Csum (fun k => cis (INR k * (2 * PI * ((INR n - INR m) / INR N)))) N
  = if Nat.eq_dec m n then (INR N, 0) else C0.
Proof.
  intros Hn Hm.
  assert (HN : 0 < INR N) by (apply lt_0_INR; lia).
  destruct (Nat.eq_dec m n) as [-> | Hne].
  - rewrite (Csum_ext _ (fun _ => (1, 0))); [apply Csum_ones |].
    intros k _. unfold Rminus. rewrite Rplus_opp_r.
    unfold Rdiv. rewrite Rmult_0_l, Rmult_0_r, Rmult_0_r.
    unfold cis. rewrite cos_0, sin_0. reflexivity.
  - set (r := (INR n - INR m) / INR N).
    apply (Cmul_cancel (Cadd (cis (2 * PI * r)) (-1, 0))).
    + apply cis_not_one.
      assert (Hr : r * INR N = INR n - INR m) by (unfold r; field; lra).
      pose proof (lt_INR _ _ Hn) as Hn'. pose proof (lt_INR _ _ Hm) as Hm'.
      pose proof (pos_INR n) as Pn. pose proof (pos_INR m) as Pm.
      destruct (Nat.lt_ge_cases m n) as [Hlt | Hge].
      * left. apply lt_INR in Hlt. split.
        -- unfold r. apply Rdiv_lt_0_compat; lra.
        -- apply (Rmult_lt_reg_r (INR N)); [exact HN | lra].
      * right. assert (Hlt : (n < m)%nat) by lia. apply lt_INR in Hlt. split.
        -- apply (Rmult_lt_reg_r (INR N)); [exact HN | lra].
        -- apply (Rmult_lt_reg_r (INR N)); [exact HN | lra].
    + rewrite geometric.
      replace (INR N * (2 * PI * r))
        with (2 * PI * INR n + - (2 * PI * INR m)) by (unfold r; field; lra).
      rewrite <- cis_add, cis_turns, cis_neg_turns.
      apply C_eq; simpl; ring.
Qed.

Lemma idft_dft_nth (x : list C) (n : nat) :
  (n < length x)%nat -> nth n (idft (dft x)) C0 = nth n x C0.
Proof.
  intros Hn. set (N := length x) in *.
  assert (HN : 0 < INR N) by (apply lt_0_INR; lia).
  assert (Hlen : length (dft x) = N)
    by (unfold dft; rewrite length_map, length_seq; reflexivity).
  unfold idft. rewrite Hlen. rewrite nth_map_seq by exact Hn.
  rewrite (Csum_ext _
             (fun k => Csum (fun m =>
                Cmul (nth m x C0)
                     (cis (INR k * (2 * PI * ((INR n - INR m) / INR N))))) N)).
  2:{ intros k Hk. unfold dft. fold N. rewrite nth_map_seq by exact Hk.
      rewrite Csum_mul_r. apply Csum_ext. intros m _.
      assert (Ha : forall a b c : C, Cmul (Cmul a b) c = Cmul a (Cmul b c))
        by (intros; apply C_eq; simpl; ring).
      rewrite Ha, cis_add. do 2 f_equal. field. lra. }
  rewrite Csum_swap.
  rewrite (Csum_ext _
             (fun m => Cmul (nth m x C0)
                            (if Nat.eq_dec m n then (INR N, 0) else C0))).
  2:{ intros m Hm. rewrite <- Csum_mul_l. f_equal.
      apply roots_of_unity_sum; assumption. }
  rewrite (Csum_single _ n N Hn).
  - destruct (Nat.eq_dec n n) as [_ | Hc]; [| congruence].
    apply C_eq; simpl; field; lra.
  - intros m Hm Hne. destruct (Nat.eq_dec m n) as [He | _]; [congruence |].
    apply C_eq; simpl; ring.
Qed.

(** C7, as amended.  For every non-empty real sequence [x] and every
    sampling rate [fs] other than zero, [fft] returns a frequency vector
    and a spectrum of the length of [x], and [ifft] of that spectrum is
    [x], exactly. *)
Theorem fft_ifft_round_trip (x : list R) (fs : R) :
  x <> [] -> fs <> 0 ->
  exists freq X,
    fft x fs = Ok (freq, X) /\
    length freq = length x /\ length X = length x /\
    ifft X = Ok x.
Proof.
  intros Hx Hfs.
  exists (fftfreq (length x) (1 / fs)), (dft (map RtoC x)).
  assert (HX : length (dft (map RtoC x)) = length x)
    by (unfold dft; rewrite length_map, length_seq, length_map; reflexivity).
  split; [| split; [| split]].
  - unfold fft, scipy_fft, truediv.
    destruct x as [| x0 x]; [congruence |]. cbn [map bind].
    destruct (Req_dec_T fs 0) as [E | _]; [contradiction | reflexivity].
  - unfold fftfreq. rewrite length_map, length_seq. reflexivity.
  - exact HX.
  - assert (HI : scipy_ifft (dft (map RtoC x)) = Ok (idft (dft (map RtoC x)))).
    { destruct (dft (map RtoC x)); [| reflexivity].
      destruct x; [congruence | discriminate HX]. }
    unfold ifft. rewrite HI. cbn [bind]. f_equal.
    apply (nth_ext _ _ 0 0).
    + rewrite length_map. unfold idft.
      rewrite length_map, length_seq. exact HX.
    + intros n Hn. rewrite length_map in Hn.
      assert (Hn' : (n < length x)%nat).
      { unfold idft in Hn. rewrite length_map, length_seq, HX in Hn. exact Hn. }
      change 0 with (fst C0). rewrite map_nth.
      rewrite idft_dft_nth by (rewrite length_map; exact Hn').
      change C0 with (RtoC 0). rewrite map_nth. reflexivity.
Qed.

(** C7, counterexample.  At the sampling rate 0 the bin spacing [1 / fs]
    is a division by zero: [fft] raises and there is no spectrum to
    invert. *)
Lemma fft_zero_rate_counterexample : fft [1] 0 = Raise ZeroDivisionError.
Proof.
  unfold fft, truediv. cbn [map scipy_fft bind].
  destruct (Req_dec_T 0 0) as [_ | H]; [reflexivity | congruence].
Qed.

(** The empty sequence is refused by the transform itself. *)
Example fft_empty (fs : R) :
  fft [] fs
  = Raise (LibraryError "invalid number of data points (0) specified").
Proof. reflexivity. Qed.

Lemma fft_ifft_round_trip_witness :
  [1; 2] <> [] /\ 1 <> 0 /\
  exists freq X, fft [1; 2] 1 = Ok (freq, X) /\ ifft X = Ok [1; 2].
Proof.
  assert (H1 : [1; 2] <> []) by discriminate.
  assert (H2 : 1 <> 0) by exact R1_neq_R0.
  split; [exact H1 |]. split; [exact H2 |].
  destruct (fft_ifft_round_trip [1; 2] 1 H1 H2) as (freq & X & Hf & _ & _ & Hi).
  exists freq, X. split; [exact Hf | exact Hi].
Defined.

End FourierFacts.

(** * Further properties: dispatch on the type name *)

Section Dispatch.
Import Py.
Local Open Scope Q_scope.
Local Open Scope string_scope.
Local Open Scope list_scope.

(** X1.  [generate] refuses a type name exactly when it is not one of
    [config.SIGNAL_TYPES]; a listed type can fail, but never with the
    unknown-type error. *)
Theorem generate_dispatch {E : SignalGenerator.Elementary}
  (g : SignalGenerator.state) (ty : string) (kw : SignalGenerator.kwargs) :
  (~ In ty SignalGenerator.SIGNAL_TYPES ->
   SignalGenerator.generate g ty kw = Raise (UnknownSignalType ty)) /\
  (In ty SignalGenerator.SIGNAL_TYPES ->
   forall ty', SignalGenerator.generate g ty kw <> Raise (UnknownSignalType ty')).
Proof.
  split.
  - intros Hnot. unfold SignalGenerator.generate.
    repeat match goal with
           | |- context [String.eqb ty ?c] =>
               destruct (String.eqb_spec ty c) as [-> | _];
               [exfalso; apply Hnot; simpl; tauto |]
           end.
    reflexivity.
  - intros Hin ty'. simpl in Hin.
    repeat (destruct Hin as [<- | Hin]); try contradiction;
      unfold SignalGenerator.generate; cbn [String.eqb Ascii.eqb Bool.eqb bind];
      try discriminate.
    + unfold argmin, setitem.
      destruct (map _ (SignalGenerator.t g)) as [| d0 d]; cbn [bind];
        [discriminate |].
      destruct (_ <? _)%nat; cbn [bind]; discriminate.
    + destruct (get (SignalGenerator.function kw) _ _);
        cbn [bind try_except]; discriminate.
Qed.

(** X2.  [create_system] refuses a type name exactly when it is not one of
    [config.SYSTEM_TYPES]; the four types that do not go through the
    Butterworth design never fail with the unknown-type error. *)
Theorem create_system_dispatch
  (butter : Z -> list Q -> SystemAnalyzer.btype -> result (list Q * list Q))
  (fs : Q) (ty : string) (kw : SystemAnalyzer.kwargs) :
  (~ In ty Config.SYSTEM_TYPES ->
   SystemAnalyzer.create_system butter fs ty kw = Raise (UnknownSystemType ty)) /\
  (In ty ["Moving Average"; "Differentiator"; "Integrator"; "Custom System"] ->
   In ty Config.SYSTEM_TYPES /\
   forall ty', SystemAnalyzer.create_system butter fs ty kw
               <> Raise (UnknownSystemType ty')).
Proof.
  split.
  - intros Hnot. unfold SystemAnalyzer.create_system.
    repeat match goal with
           | |- context [String.eqb ty ?c] =>
               destruct (String.eqb_spec ty c) as [-> | _];
               [exfalso; apply Hnot; simpl; tauto |]
           end.
    reflexivity.
  - intros Hin. simpl in Hin.
    repeat (destruct Hin as [<- | Hin]); try contradiction;
      (split; [simpl; tauto |]); intros ty';
      unfold SystemAnalyzer.create_system;
      cbn [String.eqb Ascii.eqb Bool.eqb bind]; try discriminate.
    destruct (get (SystemAnalyzer.numerator kw) _) as [b | e];
      cbn [bind try_except]; [| discriminate].
    destruct (get (SystemAnalyzer.denominator kw) _) as [a | e];
      cbn [bind try_except]; [| discriminate].
    unfold SystemAnalyzer.custom_coefficients.
    destruct (_ || _); [discriminate |].
    destruct (Qltb _ _); discriminate.
Qed.

End Dispatch.

(** * Further properties: the systems that [create_system] builds *)

Section Construction.
Import Py SystemAnalyzer.
Variable butter : Z -> list Q -> btype -> result (list Q * list Q).
Local Open Scope Q_scope.
Local Open Scope string_scope.
Local Open Scope list_scope.

Lemma clip_bounds (x lo hi : Q) :
  lo <= hi ->
  lo <= clip x lo hi <= hi /\ (lo <= x <= hi -> clip x lo hi = x).
Proof.
  intros Hlh. unfold clip, max, min.
  destruct (Qltb x lo) eqn:E1.
  - apply Qltb_lt in E1. destruct (Qltb hi lo) eqn:E2.
    + apply Qltb_lt in E2. lra.
    + apply Qltb_ge in E2. split; [lra |]. intros H. lra.
  - apply Qltb_ge in E1. destruct (Qltb hi x) eqn:E2.
    + apply Qltb_lt in E2. split; [lra |]. intros H. lra.
    + apply Qltb_ge in E2. split; [lra | reflexivity].
Qed.

Lemma sum_repeat_map (c : Q) (n : nat) :
  fold_right Qplus 0 (map (fun one => one / c) (ones n)) == of_nat n * (1 / c).
Proof.
  unfold ones. induction n as [| n IH]; simpl.
  - unfold of_nat. simpl. ring.
  - rewrite IH, of_nat_S. ring.
Qed.

(** X3.  "Moving Average" never fails: the window is [int(window_size)]
    raised to at least 1; [b] has that many coefficients, each the
    inverse of the window, and they add up to 1; [a] is [[1.0]]. *)
Theorem moving_average_coefficients (fs : Q) (kw : kwargs) :
  let N := Z.max 1 (int (get (window_size kw) 5)) in
  exists b,
    create_system butter fs "Moving Average" kw = Ok (b, [1.0]) /\
    length b = Z.to_nat N /\
    (forall k, (k < Z.to_nat N)%nat -> nth k b 0 == 1 / inject_Z N) /\
    fold_right Qplus 0 b == 1.
Proof.
  intros N. unfold create_system. cbn [String.eqb Ascii.eqb Bool.eqb].
  set (w := int (get (window_size kw) 5)) in *.
  assert (HN : (if (w <? 1)%Z then 1%Z else w) = N).
  { unfold N. destruct (Z.ltb_spec w 1); lia. }
  rewrite HN. eexists. split; [reflexivity |].
  assert (HN1 : (1 <= N)%Z) by (unfold N; lia).
  split; [| split].
  - unfold ones. rewrite length_map, repeat_length. reflexivity.
  - intros k Hk.
    rewrite (nth_indep _ 0 (1 / inject_Z N))
      by (unfold ones; rewrite length_map, repeat_length; exact Hk).
    rewrite (map_nth (fun one => one / inject_Z N) (ones (Z.to_nat N)) 1).
    unfold ones. rewrite nth_repeat. reflexivity.
  - rewrite sum_repeat_map, of_nat_to_nat by lia. field.
    change 0 with (inject_Z 0). rewrite inject_Z_injective. lia.
Qed.

(** X4.  The normalized cutoff handed to the Butterworth design.  With a
    positive sampling rate, "High-pass Filter" always hands over a value
    strictly between 0 and 1, whatever the requested cutoff;
    "Low-pass Filter" hands over a value below 1, which is the requested
    cutoff over Nyquist when that cutoff is below Nyquist: a cutoff that
    is zero or negative is passed on as it is. *)
Theorem butterworth_cutoff (fs : Q) (kw : kwargs) :
  0 < fs ->
  let nyquist := fs / 2 in
  let requested := get (cutoff kw) 10.0 in
  let order := int (get (order kw) 4) in
  (exists wn,
     create_system butter fs "High-pass Filter" kw = butter order [wn] high /\
     0 < wn < 1) /\
  (exists wn,
     create_system butter fs "Low-pass Filter" kw = butter order [wn] low /\
     wn < 1 /\
     (requested < nyquist -> wn = requested / nyquist) /\
     (nyquist <= requested -> wn = nyquist * 0.99 / nyquist)).
Proof.
  intros Hfs nyquist requested order.
  assert (Hn : 0 < nyquist) by (unfold nyquist; apply Qlt_shift_div_l; lra).
  assert (Hdiv : forall x, truediv x nyquist = Ok (x / nyquist)).
  { intros x. unfold truediv. destruct (Qeq_bool nyquist 0) eqn:E; [| reflexivity].
    apply Qeq_bool_iff in E. lra. }
  assert (Hlt1 : forall x, x < nyquist -> x / nyquist < 1).
  { intros x Hx. apply Qlt_shift_div_r; lra. }
  assert (H99 : nyquist * 0.99 < nyquist).
  { assert (H : nyquist * 0.99 == nyquist - nyquist * 0.01) by ring. lra. }
  split.
  - unfold create_system. cbn [String.eqb Ascii.eqb Bool.eqb].
    fold nyquist requested order.
    set (c1 := if Qle_bool requested 0 then 1.0 else requested).
    assert (Hc1 : 0 < c1).
    { unfold c1. destruct (Qle_bool requested 0) eqn:E; [reflexivity |].
      destruct (Qlt_le_dec 0 requested) as [H | H]; [exact H |].
      apply Qle_bool_iff in H. congruence. }
    set (c2 := if Qle_bool nyquist c1 then nyquist * 0.99 else c1).
    assert (Hc2 : 0 < c2 < nyquist).
    { unfold c2. destruct (Qle_bool nyquist c1) eqn:E.
      - split; [| exact H99]. apply Qmult_lt_0_compat; [exact Hn | reflexivity].
      - split; [exact Hc1 |].
        destruct (Qlt_le_dec c1 nyquist) as [H | H]; [exact H |].
        apply Qle_bool_iff in H. congruence. }
    rewrite Hdiv. cbn [bind]. eexists. split; [reflexivity |].
    split; [apply Qlt_shift_div_l; lra | apply Hlt1; lra].
  - unfold create_system. cbn [String.eqb Ascii.eqb Bool.eqb].
    fold nyquist requested order.
    rewrite Hdiv. cbn [bind]. eexists. split; [reflexivity |].
    destruct (Qle_bool nyquist requested) eqn:E.
    + apply Qle_bool_iff in E. split; [apply Hlt1; exact H99 |].
      split; [intros H; lra | reflexivity].
    + assert (Hr : requested < nyquist).
      { destruct (Qlt_le_dec requested nyquist) as [H | H]; [exact H |].
        apply Qle_bool_iff in H. congruence. }
      split; [apply Hlt1; exact Hr |].
      split; [reflexivity | intros H; lra].
Qed.

(** X5.  The normalized band handed to the band-pass design.  With a positive
    sampling rate the two edges are always positive and in order; when
    the clamped request is in order the upper edge is at most 0.99; in
    the fallback the edges are 5 and 15 over Nyquist, so the upper edge
    reaches 1 or more as soon as Nyquist is 15 or less. *)
Theorem band_pass_normalized (fs : Q) (kw : kwargs) :
  0 < fs ->
  let nyquist := fs / 2 in
  let lo := max (get (lowcut kw) 5.0) 0.1 in
  let hi := min (get (highcut kw) 15.0) (nyquist * 0.99) in
  let order := int (get (order kw) 4) in
  exists wl wh,
    create_system butter fs "Band-pass Filter" kw
    = butter order [wl; wh] band /\
    0 < wl < wh /\
    (lo < hi -> wh <= 0.99) /\
    (hi <= lo -> (1 <= wh <-> nyquist <= 15)).
Proof.
  intros Hfs nyquist lo hi order.
  assert (Hn : 0 < nyquist) by (unfold nyquist; apply Qlt_shift_div_l; lra).
  assert (Hdiv : forall x, truediv x nyquist = Ok (x / nyquist)).
  { intros x. unfold truediv. destruct (Qeq_bool nyquist 0) eqn:E; [| reflexivity].
    apply Qeq_bool_iff in E. lra. }
  assert (Hmono : forall x y, x < y -> x / nyquist < y / nyquist).
  { intros x y Hxy. unfold Qdiv. apply Qmult_lt_compat_r; [| exact Hxy].
    apply Qinv_lt_0_compat. exact Hn. }
  assert (Hlo : 0.1 <= lo).
  { unfold lo, max. destruct (Qltb _ 0.1) eqn:E; [lra |].
    apply Qltb_ge in E. exact E. }
  assert (Hhi : hi <= nyquist * 0.99).
  { unfold hi, min. destruct (Qltb (nyquist * 0.99) _) eqn:E; [lra |].
    apply Qltb_ge in E. exact E. }
  unfold create_system. cbn [String.eqb Ascii.eqb Bool.eqb].
  fold nyquist order. unfold valid_band. fold lo hi.
  destruct (Qle_bool hi lo) eqn:E.
  - apply Qle_bool_iff in E. rewrite !Hdiv. cbn [bind].
    eexists. eexists. split; [reflexivity |].
    split; [| split].
    + split; [apply Qlt_shift_div_l; [exact Hn | reflexivity] |].
      apply Hmono. reflexivity.
    + intros H. lra.
    + intros _. split; intros H.
      * apply (Qmult_le_compat_r _ _ nyquist) in H; [| lra].
        assert (H1 : 15.0 / nyquist * nyquist == 15) by (field; lra). lra.
      * apply Qle_shift_div_l; lra.
  - assert (Hlt : lo < hi).
    { destruct (Qlt_le_dec lo hi) as [H | H]; [exact H |].
      apply Qle_bool_iff in H. congruence. }
    rewrite !Hdiv. cbn [bind].
    eexists. eexists. split; [reflexivity |].
    split; [| split].
    + split; [apply Qlt_shift_div_l; lra | apply Hmono; exact Hlt].
    + intros _. apply Qle_shift_div_r; [exact Hn | lra].
    + intros H. lra.
Qed.

End Construction.

Section FirstOrder.
Import Py SystemAnalyzer.
Variable butter : Z -> list Q -> btype -> result (list Q * list Q).
Local Open Scope Q_scope.
Local Open Scope string_scope.
Local Open Scope list_scope.

Lemma outside_unit_circle_nonzero (z : ZTransform.complex) :
  1 <= ZTransform.norm2 z -> ZTransform.is_zero z = false.
Proof.
  intros H. destruct (ZTransform.is_zero z) eqn:E; [| reflexivity].
  apply is_zero_iff in E. destruct E as [E1 E2]. simpl in E1, E2.
  unfold ZTransform.norm2 in H. rewrite E1, E2 in H. lra.
Qed.

(** The denominator [1 - p / z] does not vanish on or outside the unit
    circle when [0 <= p < 1]. *)
Lemma first_order_denominator (p : Q) (z : ZTransform.complex) :
  0 <= p -> p < 1 -> 1 <= ZTransform.norm2 z ->
  exists den,
    ZTransform.series z [1.0; - p] = Some den /\
    ZTransform.is_zero den = false.
Proof.
  intros Hp0 Hp1 Hz. pose proof (outside_unit_circle_nonzero z Hz) as Hnz.
  unfold ZTransform.series. cbn [ZTransform.series_from ZTransform.pow_neg ZTransform.cpow].
  rewrite Hnz. eexists. split; [reflexivity |].
  match goal with |- ?d = false => destruct d eqn:E end; [| reflexivity].
  exfalso.
  apply is_zero_iff in E. destruct E as [E1 E2].
  destruct z as [x y]. unfold ZTransform.norm2 in Hz. cbn [fst snd] in Hz.
  unfold ZTransform.cadd, ZTransform.cscale, ZTransform.cinv, ZTransform.cpow,
    ZTransform.cmul, ZTransform.norm2, ZTransform.c1, ZTransform.c0 in E1, E2.
  cbn [fst snd] in E1, E2.
  set (N := x * x + y * y) in *.
  assert (HNpos : 0 < N) by lra.
  assert (Hx : p * x == N).
  { match type of E1 with
    | ?l == _ =>
        assert (H : l * N == N - p * x)
          by (unfold N; field; intros Hc;
              assert (Hc' : x * x + y * y == 0) by (rewrite <- Hc; ring);
              fold N in Hc'; lra)
    end.
    rewrite E1 in H. lra. }
  assert (Hy : p * y == 0).
  { match type of E2 with
    | ?l == _ =>
        assert (H : l * N == p * y)
          by (unfold N; field; intros Hc;
              assert (Hc' : x * x + y * y == 0) by (rewrite <- Hc; ring);
              fold N in Hc'; lra)
    end.
    rewrite E2 in H. lra. }
  assert (HN : N == x * x + y * y) by reflexivity.
  apply Qmult_integral in Hy. destruct Hy as [Hy | Hy].
  - rewrite Hy in Hx. lra.
  - assert (Hxx : x * (x - p) == 0) by (rewrite Hy in HN; lra).
    apply Qmult_integral in Hxx. destruct Hxx as [Hx0 | Hxp].
    + rewrite Hx0, Hy in HN. lra.
    + assert (Hxe : x == p) by lra. rewrite Hxe, Hy in HN.
      nra.
Qed.

Lemma series_nonzero (z : ZTransform.complex) (c : list Q) :
  ZTransform.is_zero z = false -> exists s, ZTransform.series z c = Some s.
Proof. intros H. apply (series_from_nonzero z c H 0). Qed.

Lemma first_order_construction (fs : Q) (kw : kwargs) :
  let alpha' := clip (get (alpha kw) 0.95) 0.0 0.999 in
  let beta' := clip (get (beta kw) 0.99) 0.0 0.9999 in
  create_system butter fs "Differentiator" kw
  = Ok ([1.0; - 1.0], [1.0; - alpha']) /\
  create_system butter fs "Integrator" kw = Ok ([1.0], [1.0; - beta']) /\
  0 <= alpha' <= 0.999 /\ 0 <= beta' <= 0.9999.
Proof.
  intros alpha' beta'.
  split; [reflexivity |]. split; [reflexivity |]. split.
  - destruct (clip_bounds (get (alpha kw) 0.95) 0.0 0.999) as [[H1 H2] _];
      [discriminate |]. fold alpha' in H1, H2. split; lra.
  - destruct (clip_bounds (get (beta kw) 0.99) 0.0 0.9999) as [[H1 H2] _];
      [discriminate |]. fold beta' in H1, H2. split; lra.
Qed.

(** X6.  "Differentiator" and "Integrator" never fail, clamp their
    coefficient into [0, 0.999] and [0, 0.9999], and are stable: the
    transfer function of the system they return has a finite value at
    every point on or outside the unit circle. *)
Theorem first_order_stable (fs : Q) (kw : kwargs) :
  let alpha' := clip (get (alpha kw) 0.95) 0.0 0.999 in
  let beta' := clip (get (beta kw) 0.99) 0.0 0.9999 in
  create_system butter fs "Differentiator" kw
  = Ok ([1.0; - 1.0], [1.0; - alpha']) /\
  create_system butter fs "Integrator" kw = Ok ([1.0], [1.0; - beta']) /\
  0 <= alpha' <= 0.999 /\ 0 <= beta' <= 0.9999 /\
  forall z, 1 <= ZTransform.norm2 z ->
    (exists H, ZTransform.evaluate z [1.0; - 1.0] [1.0; - alpha'] = Some H) /\
    (exists H, ZTransform.evaluate z [1.0] [1.0; - beta'] = Some H).
Proof.
  intros alpha' beta'.
  destruct (first_order_construction fs kw) as (Hd & Hi & Ha & Hb).
  cbv zeta in Hd, Hi, Ha, Hb. fold alpha' in Hd, Ha. fold beta' in Hi, Hb.
  split; [exact Hd |]. split; [exact Hi |].
  split; [exact Ha |]. split; [exact Hb |].
  intros z Hz. pose proof (outside_unit_circle_nonzero z Hz) as Hnz.
  assert (Hstable : forall p b, 0 <= p -> p < 1 ->
            exists H, ZTransform.evaluate z b [1.0; - p] = Some H).
  { intros p b Hp0 Hp1.
    destruct (first_order_denominator p z Hp0 Hp1 Hz) as (den & Hden & Hnzd).
    destruct (series_nonzero z b Hnz) as [num Hnum].
    unfold ZTransform.evaluate. rewrite Hnum, Hden.
    unfold ZTransform.cdiv. rewrite Hnzd. eexists. reflexivity. }
  split; apply Hstable; lra.
Qed.

Lemma first_order_dc_gain (p : Q) :
  0 <= p -> p < 1 ->
  (exists H, ZTransform.evaluate (1, 0) [1.0; - 1.0] [1.0; - p] = Some H /\
             ZTransform.ceq H ZTransform.c0) /\
  (exists H, ZTransform.evaluate (1, 0) [1.0] [1.0; - p] = Some H /\
             ZTransform.ceq H (1 / (1 - p), 0)).
Proof.
  intros Hp0 Hp1.
  destruct (first_order_denominator p (1, 0) Hp0 Hp1) as (den & Hden & Hnzd);
    [discriminate |].
  unfold ZTransform.series in Hden.
  cbn [ZTransform.series_from ZTransform.pow_neg ZTransform.cpow] in Hden.
  change (ZTransform.is_zero (1, 0)) with false in Hden. cbv iota in Hden.
  injection Hden as <-.
  split.
  - unfold ZTransform.evaluate, ZTransform.series.
    cbn [ZTransform.series_from ZTransform.pow_neg ZTransform.cpow].
    change (ZTransform.is_zero (1, 0)) with false. cbv iota.
    unfold ZTransform.cdiv. rewrite Hnzd.
    eexists. split; [reflexivity |].
    unfold ZTransform.ceq, ZTransform.cmul, ZTransform.cadd, ZTransform.cscale,
      ZTransform.cinv, ZTransform.cpow, ZTransform.cmul, ZTransform.norm2,
      ZTransform.c1, ZTransform.c0.
    cbn [fst snd]. split; field; lra.
  - unfold ZTransform.evaluate, ZTransform.series.
    cbn [ZTransform.series_from ZTransform.pow_neg ZTransform.cpow].
    change (ZTransform.is_zero (1, 0)) with false. cbv iota.
    unfold ZTransform.cdiv. rewrite Hnzd.
    eexists. split; [reflexivity |].
    unfold ZTransform.ceq, ZTransform.cmul, ZTransform.cadd, ZTransform.cscale,
      ZTransform.cinv, ZTransform.cpow, ZTransform.cmul, ZTransform.norm2,
      ZTransform.c1, ZTransform.c0.
    cbn [fst snd]. split; field; lra.
Qed.

(** X7.  At [z = 1], the DC gain, the differentiator that [create_system]
    returns evaluates to 0 and the integrator to [1 / (1 - beta)], with
    [beta] the clamped coefficient. *)
Theorem first_order_dc (fs : Q) (kw : kwargs) :
  let beta' := clip (get (beta kw) 0.99) 0.0 0.9999 in
  (exists b a H,
     create_system butter fs "Differentiator" kw = Ok (b, a) /\
     ZTransform.evaluate (1, 0) b a = Some H /\
     ZTransform.ceq H ZTransform.c0) /\
  (exists b a H,
     create_system butter fs "Integrator" kw = Ok (b, a) /\
     ZTransform.evaluate (1, 0) b a = Some H /\
     ZTransform.ceq H (1 / (1 - beta'), 0)).
Proof.
  intros beta'.
  destruct (first_order_construction fs kw) as (Hd & Hi & Ha & Hb).
  cbv zeta in Hd, Hi, Ha, Hb. fold beta' in Hi, Hb.
  split.
  - destruct (first_order_dc_gain (clip (get (alpha kw) 0.95) 0.0 0.999))
      as [(H & He & Hc) _]; [lra | lra |].
    eexists. eexists. exists H. split; [exact Hd |]. split; assumption.
  - destruct (first_order_dc_gain beta') as [_ (H & He & Hc)]; [lra | lra |].
    eexists. eexists. exists H. split; [exact Hi |]. split; assumption.
Qed.

End FirstOrder.

(** * Further properties: the filtering kernel behind the responses *)

Section Kernel.
Import Py SystemAnalyzer.
Local Open Scope Q_scope.
Local Open Scope string_scope.
Local Open Scope list_scope.

Lemma qsum_ext (f g : nat -> Q) (n : nat) :
  (forall i, (i < n)%nat -> f i == g i) -> qsum f n == qsum g n.
Proof.
  induction n as [| n IH]; intros H; simpl; [reflexivity |].
  rewrite IH by (intros i Hi; apply H; lia). rewrite (H n) by lia. reflexivity.
Qed.

Lemma qsum_zero (n : nat) : qsum (fun _ => 0) n == 0.
Proof. induction n as [| n IH]; simpl; [reflexivity | rewrite IH; ring]. Qed.

Lemma qsum_plus (f g : nat -> Q) (n : nat) :
  qsum (fun i => f i + g i) n == qsum f n + qsum g n.
Proof. induction n as [| n IH]; simpl; [ring | rewrite IH; ring]. Qed.

Lemma qsum_minus (f g : nat -> Q) (n : nat) :
  qsum (fun i => f i - g i) n == qsum f n - qsum g n.
Proof. induction n as [| n IH]; simpl; [ring | rewrite IH; ring]. Qed.

Lemma qsum_scale (c : Q) (f : nat -> Q) (n : nat) :
  qsum (fun i => c * f i) n == c * qsum f n.
Proof. induction n as [| n IH]; simpl; [ring | rewrite IH; ring]. Qed.

Lemma qsum_swap (f : nat -> nat -> Q) (n m : nat) :
  qsum (fun i => qsum (fun j => f i j) m) n
  == qsum (fun j => qsum (fun i => f i j) n) m.
Proof.
  induction n as [| n IH]; simpl.
  - symmetry. apply qsum_zero.
  - rewrite IH. symmetry. apply qsum_plus.
Qed.

(** A sum over delayed terms is the sum of the terms that have started. *)
Lemma qsum_delay (f : nat -> Q) (k n : nat) :
  qsum (fun j => if (k <=? j)%nat then f (j - k)%nat else 0) (S n)
  == if (k <=? n)%nat then qsum f (S (n - k)) else 0.
Proof.
  induction n as [| n IH].
  - simpl. destruct k; simpl; ring.
  - change (qsum ?g (S (S n))) with (qsum g (S n) + g (S n)).
    rewrite IH.
    destruct (Nat.leb_spec k (S n)) as [H | H].
    + destruct (Nat.leb_spec k n) as [H' | H'].
      * replace (S n - k)%nat with (S (n - k)) by lia.
        change (qsum f (S (S (n - k)))) with (qsum f (S (n - k)) + f (S (n - k))).
        reflexivity.
      * assert (k = S n) as -> by lia. rewrite Nat.sub_diag. simpl. ring.
    + destruct (Nat.leb_spec k n); [lia | ring].
Qed.

Lemma fold_seq_qsum (f : nat -> Q) (len : nat) :
  forall from,
    fold_right Qplus 0 (map f (seq from len))
    == qsum (fun i => f (from + i)%nat) len.
Proof.
  induction len as [| len IH]; intros from; [reflexivity |].
  rewrite seq_S, map_app, fold_right_app. simpl.
  assert (Hacc : forall l c, fold_right Qplus c l == fold_right Qplus 0 l + c).
  { induction l as [| q l IHl]; intros c; simpl; [ring |].
    rewrite IHl. ring. }
  rewrite Hacc, IH. ring.
Qed.

Lemma qsum_head (f : nat -> Q) (m : nat) :
  qsum f (S m) == f 0%nat + qsum (fun i => f (S i)) m.
Proof.
  induction m as [| m IH]; [simpl; ring |].
  change (qsum f (S (S m))) with (qsum f (S m) + f (S m)).
  rewrite IH. simpl. ring.
Qed.

Lemma fold_firstn_qsum (l : list Q) :
  forall m, fold_right Qplus 0 (firstn m l) == qsum (fun i => nth i l 0) m.
Proof.
  induction l as [| q l IH]; intros m.
  - rewrite firstn_nil. cbn [fold_right].
    rewrite (qsum_ext _ (fun _ => 0)) by (intros [| i] _; reflexivity).
    rewrite qsum_zero. reflexivity.
  - destruct m as [| m]; [reflexivity |].
    cbn [firstn fold_right]. rewrite IH, qsum_head. reflexivity.
Qed.

Lemma lfilter_out_stable (b a x : list Q) (n m j : nat) :
  (j < n)%nat -> (j < m)%nat ->
  nth j (lfilter_out b a x n) 0 = nth j (lfilter_out b a x m) 0.
Proof. intros Hn Hm. rewrite !nth_lfilter_out by assumption. reflexivity. Qed.

(** What [lfilter] accepts. *)
Lemma lfilter_ok (b a x : list Q) :
  b <> [] -> a <> [] -> ~ nth 0 a 0 == 0 ->
  lfilter b a x = Ok (lfilter_out b a x (length x)).
Proof.
  intros Hb Ha Ha0. unfold lfilter.
  destruct b; [congruence |]. destruct a as [| a0 a]; [congruence |].
  cbn [length Nat.eqb orb nth] in *.
  destruct (Qeq_bool a0 0) eqn:E; [| reflexivity].
  apply Qeq_bool_iff in E. contradiction.
Qed.

End Kernel.

Section ImpulseAndStep.
Import Py SystemAnalyzer.
Variable dimpulse : list Q -> list Q -> Q -> list Q -> result (list Q * list Q).
Variable dstep : list Q -> list Q -> Q -> list Q -> result (list Q * list Q).
Local Open Scope Q_scope.
Local Open Scope string_scope.
Local Open Scope list_scope.

(** The difference equation, with both sums written over indices. *)
Lemma lfilter_out_recurrence (b a x : list Q) (n : nat) :
  ~ nth 0 a 0 == 0 ->
  nth 0 a 0 * nth n (lfilter_out b a x (S n)) 0
  == qsum (fun k => nth k b 0 * tap x n k) (length b)
     - qsum (fun k => nth (S k) a 0
                      * (if (S k <=? n)%nat
                         then nth (n - S k) (lfilter_out b a x (S (n - S k))) 0
                         else 0))
            (length a - 1).
Proof.
  intros Ha0. rewrite nth_lfilter_out by lia. unfold taps.
  rewrite !fold_seq_qsum, Nat.sub_0_r.
  rewrite (qsum_ext (fun i => nth (1 + i) a 0 * tap (lfilter_out b a x n) n (1 + i))
                    (fun k => nth (S k) a 0
                      * (if (S k <=? n)%nat
                         then nth (n - S k) (lfilter_out b a x (S (n - S k))) 0
                         else 0))).
  - cbn [Nat.add]. field. exact Ha0.
  - intros i _. cbn [Nat.add]. unfold tap.
    destruct (Nat.leb_spec (S i) n) as [H | H]; [| reflexivity].
    rewrite (lfilter_out_stable b a x n (S (n - S i))) by lia. reflexivity.
Qed.

Lemma nth_impulse (L i : nat) :
  (0 < L)%nat ->
  nth i (replace_nth (zeros L) 0 1.0) 0 == (if (i =? 0)%nat then 1 else 0).
Proof.
  intros HL. destruct i as [| i].
  - rewrite nth_replace_nth_eq by (unfold zeros; rewrite repeat_length; exact HL).
    reflexivity.
  - rewrite nth_replace_nth_neq by lia. unfold zeros.
    destruct (Nat.lt_ge_cases (S i) L) as [H | H].
    + rewrite nth_repeat_lt by exact H. reflexivity.
    + rewrite nth_overflow by (rewrite repeat_length; exact H). reflexivity.
Qed.

Lemma qsum_indicator (v : Q) (n M : nat) :
  qsum (fun k => if (k =? n)%nat then v else 0) M
  == if (n <? M)%nat then v else 0.
Proof.
  induction M as [| M IH]; [reflexivity |].
  change (qsum ?g (S M)) with (qsum g M + g M). rewrite IH.
  destruct (Nat.ltb_spec n M); destruct (Nat.eqb_spec M n);
    destruct (Nat.ltb_spec n (S M)); try lia; ring.
Qed.

Lemma impulse_input (L : nat) :
  (0 < L)%nat -> setitem (zeros L) 0 1.0 = Ok (replace_nth (zeros L) 0 1.0).
Proof.
  intros HL. unfold setitem, zeros. rewrite repeat_length.
  apply Nat.ltb_lt in HL. rewrite HL. reflexivity.
Qed.

(** X11.  A system with one denominator coefficient [a0] and at least two
    numerator coefficients goes through the filter, not through
    [dimpulse]: on a non-empty time vector its impulse response is the
    numerator divided by [a0], followed by zeros. *)
Theorem fir_impulse_response (fs a0 : Q) (b t : list Q) :
  (2 <= length b)%nat -> ~ a0 == 0 -> t <> [] ->
  exists h,
    impulse_response dimpulse fs b [a0] (Some t) = Ok (t, h) /\
    length h = length t /\
    forall n, (n < length t)%nat -> nth n h 0 == nth n b 0 / a0.
Proof.
  intros Hb Ha0 Ht.
  assert (HL : (0 < length t)%nat) by (destruct t; [congruence | simpl; lia]).
  assert (Hbn : b <> []) by (destruct b; [simpl in Hb; lia | discriminate]).
  exists (lfilter_out b [a0] (replace_nth (zeros (length t)) 0 1.0) (length t)).
  split; [| split].
  - unfold impulse_response. cbn [bind length Nat.eqb andb].
    destruct (Nat.eqb_spec (length b) 1) as [H | _]; [lia |].
    destruct (Nat.ltb_spec 1 (length b)) as [_ | H]; [| lia].
    rewrite impulse_input by exact HL. cbn [bind].
    rewrite lfilter_ok by (try assumption; discriminate). cbn [bind].
    rewrite length_replace_nth. unfold zeros. rewrite repeat_length.
    reflexivity.
  - apply lfilter_out_length.
  - intros n Hn. rewrite nth_lfilter_out by exact Hn.
    assert (Hfb : forall y, taps [a0] y n 1 = 0) by reflexivity.
    rewrite Hfb. cbn [nth]. unfold taps. rewrite fold_seq_qsum, Nat.sub_0_r.
    rewrite (qsum_ext _ (fun k => if (k =? n)%nat then nth n b 0 else 0)).
    + rewrite qsum_indicator.
      destruct (Nat.ltb_spec n (length b)) as [H | H].
      * field. exact Ha0.
      * rewrite nth_overflow by exact H. field. exact Ha0.
    + intros k _. cbn [Nat.add]. unfold tap.
      destruct (Nat.leb_spec k n) as [H | H].
      * rewrite nth_impulse by exact HL.
        destruct (Nat.eqb_spec (n - k) 0) as [H0 | H0];
          destruct (Nat.eqb_spec k n) as [H1 | H1]; try lia.
        -- subst k. ring.
        -- ring.
      * destruct (Nat.eqb_spec k n) as [H1 | H1]; [lia | ring].
Qed.

Lemma qsum_impulse (L m : nat) :
  (0 < L)%nat ->
  qsum (fun i => nth i (replace_nth (zeros L) 0 1.0) 0) (S m) == 1.
Proof.
  intros HL. rewrite qsum_head, nth_impulse by exact HL.
  rewrite (qsum_ext _ (fun _ => 0)); [rewrite qsum_zero; reflexivity |].
  intros i _. rewrite nth_impulse by exact HL. reflexivity.
Qed.

(** Superposition on the kernel: driven by the unit step, the filter
    returns the running sum of what it returns for the unit impulse. *)
Lemma step_output_running_sum (b a : list Q) (L : nat) :
  ~ nth 0 a 0 == 0 ->
  forall n, (n < L)%nat ->
    nth n (lfilter_out b a (ones L) (S n)) 0
    == qsum (fun j => nth j (lfilter_out b a (replace_nth (zeros L) 0 1.0)
                                         (S j)) 0)
            (S n).
Proof.
  intros Ha0 n. induction n as [n IH] using lt_wf_ind. intros Hn.
  assert (HL : (0 < L)%nat) by lia.
  set (xd := replace_nth (zeros L) 0 1.0) in *.
  set (Yd := fun j => nth j (lfilter_out b a xd (S j)) 0) in *.
  apply (Qmult_inj_l _ _ (nth 0 a 0)); [exact Ha0 |].
  rewrite <- qsum_scale.
  rewrite (qsum_ext (fun i => nth 0 a 0 * Yd i)
             (fun j => qsum (fun k => nth k b 0 * tap xd j k) (length b)
                       - qsum (fun k => nth (S k) a 0
                                 * (if (S k <=? j)%nat then Yd (j - S k)%nat
                                    else 0))
                              (length a - 1)))
    by (intros j _; apply lfilter_out_recurrence; exact Ha0).
  rewrite qsum_minus, lfilter_out_recurrence by exact Ha0.
  apply Qplus_comp; [| apply Qopp_comp].
  - rewrite qsum_swap. apply qsum_ext. intros k _.
    rewrite qsum_scale. apply Qmult_comp; [reflexivity |].
    symmetry. unfold tap at 1. rewrite (qsum_delay (fun i => nth i xd 0)).
    unfold tap. destruct (Nat.leb_spec k n) as [H | H]; [| reflexivity].
    unfold xd. rewrite qsum_impulse by exact HL.
    unfold ones. rewrite nth_repeat_lt by lia. reflexivity.
  - rewrite qsum_swap. apply qsum_ext. intros k _.
    rewrite qsum_scale. apply Qmult_comp; [reflexivity |].
    rewrite (qsum_delay Yd).
    destruct (Nat.leb_spec (S k) n) as [H | H]; [| reflexivity].
    apply IH; lia.
Qed.

(** X12.  For a system with more numerator than denominator coefficients both
    responses go through the filter, and on a non-empty time vector the
    step response is the running sum of the impulse response. *)
Theorem step_is_running_sum (fs : Q) (b a t : list Q) :
  (length a < length b)%nat -> a <> [] -> ~ nth 0 a 0 == 0 -> t <> [] ->
  exists h s,
    impulse_response dimpulse fs b a (Some t) = Ok (t, h) /\
    step_response dstep fs b a (Some t) = Ok (t, s) /\
    length h = length t /\ length s = length t /\
    forall n, (n < length t)%nat ->
      nth n s 0 == fold_right Qplus 0 (firstn (S n) h).
Proof.
  intros Hlen Ha Ha0 Ht.
  assert (HL : (0 < length t)%nat) by (destruct t; [congruence | simpl; lia]).
  assert (Hla : (0 < length a)%nat) by (destruct a; [congruence | simpl; lia]).
  assert (Hb : b <> []) by (destruct b; [simpl in Hlen; lia | discriminate]).
  assert (Hstatic : (length a =? 1)%nat && (length b =? 1)%nat = false).
  { destruct (Nat.eqb_spec (length a) 1); destruct (Nat.eqb_spec (length b) 1);
      try reflexivity; lia. }
  apply Nat.ltb_lt in Hlen.
  set (L := length t) in *.
  exists (lfilter_out b a (replace_nth (zeros L) 0 1.0) L),
         (lfilter_out b a (ones L) L).
  split; [| split; [| split; [| split]]].
  - unfold impulse_response. cbn [bind]. rewrite Hstatic, Hlen. fold L.
    rewrite impulse_input by exact HL. cbn [bind].
    rewrite lfilter_ok by assumption. cbn [bind].
    rewrite length_replace_nth. unfold zeros. rewrite repeat_length.
    reflexivity.
  - unfold step_response. cbn [bind]. rewrite Hstatic, Hlen. fold L.
    rewrite lfilter_ok by assumption. cbn [bind].
    unfold ones. rewrite repeat_length. reflexivity.
  - apply lfilter_out_length.
  - apply lfilter_out_length.
  - intros n Hn. rewrite fold_firstn_qsum.
    rewrite (lfilter_out_stable b a (ones L) L (S n)) by lia.
    rewrite (step_output_running_sum b a L Ha0 n Hn).
    apply qsum_ext. intros j Hj.
    rewrite (lfilter_out_stable b a _ L (S j)) by lia. reflexivity.
Qed.

End ImpulseAndStep.

Section Composition.
Import Py SystemAnalyzer.
Variable butter : Z -> list Q -> btype -> result (list Q * list Q).
Variable dimpulse : list Q -> list Q -> Q -> list Q -> result (list Q * list Q).
Variable freqz : list Q -> list Q -> Z -> Q -> result (list Q * list complex).
Local Open Scope Q_scope.
Local Open Scope string_scope.
Local Open Scope list_scope.

Lemma custom_coefficients_ok (b0 a0 b a : list Q) :
  custom_coefficients b0 a0 = Ok (b, a) ->
  b <> [] /\ a <> [] /\ 1e-12 <= Qabs (nth 0 a 0).
Proof.
  unfold custom_coefficients.
  destruct (_ || _); [discriminate |].
  rewrite !length_pos_cons.
  destruct (Qltb _ 1e-12) eqn:E; [discriminate |].
  intros [= <- <-]. apply Qltb_ge in E.
  split; [| split].
  - destruct (trim_zeros_f b0); discriminate.
  - destruct (trim_zeros_f a0); discriminate.
  - exact E.
Qed.

(** X9.  The invariant of a transfer function, and what it buys.  Whatever
    "Moving Average", "Differentiator", "Integrator" or "Custom System"
    returns has a non-empty numerator and a non-empty denominator whose
    first coefficient is at least 1e-12 in magnitude, so [apply_system]
    accepts it on every input and returns as many samples as it is
    given. *)
Theorem constructed_system_applies (fs : Q) (ty : string) (kw : kwargs)
  (b a : list Q) :
  In ty ["Moving Average"; "Differentiator"; "Integrator"; "Custom System"] ->
  create_system butter fs ty kw = Ok (b, a) ->
  b <> [] /\ a <> [] /\ 1e-12 <= Qabs (nth 0 a 0) /\
  forall x, exists y, apply_system b a x = Ok y /\ length y = length x.
Proof.
  intros Hin Hc.
  assert (H : b <> [] /\ a <> [] /\ 1e-12 <= Qabs (nth 0 a 0)).
  { simpl in Hin.
    repeat (destruct Hin as [<- | Hin]); try contradiction; revert Hc;
      unfold create_system; cbn [String.eqb Ascii.eqb Bool.eqb].
    - intros [= <- <-]. split; [| split; [discriminate | discriminate]].
      set (w := if (_ <? 1)%Z then 1%Z else _).
      assert (Hw : (1 <= w)%Z) by (unfold w; destruct (Z.ltb_spec (int (get (window_size kw) 5)) 1); lia).
      destruct (Z.to_nat w) eqn:E; [lia | discriminate].
    - intros [= <- <-]. repeat split; discriminate.
    - intros [= <- <-]. repeat split; discriminate.
    - destruct (get (numerator kw) _) as [b0 | e]; cbn [bind try_except];
        [| discriminate].
      destruct (get (denominator kw) _) as [a0 | e]; cbn [bind try_except];
        [| discriminate].
      destruct (custom_coefficients b0 a0) as [[b' a'] | e] eqn:Hcc;
        [| discriminate].
      intros [= <- <-]. apply (custom_coefficients_ok _ _ _ _ Hcc). }
  destruct H as (Hb & Ha & Ha0).
  split; [exact Hb |]. split; [exact Ha |]. split; [exact Ha0 |].
  assert (Hnz : ~ nth 0 a 0 == 0).
  { intros Hz. rewrite Hz in Ha0. revert Ha0. apply Qlt_not_le. reflexivity. }
  intros x. exists (lfilter_out b a x (length x)).
  split; [| apply lfilter_out_length].
  unfold apply_system. destruct x as [| x0 x]; [reflexivity |].
  cbn [length Nat.eqb]. apply lfilter_ok; assumption.
Qed.

(** X10.  With a window of 1 or less "Moving Average" is the identity system:
    applied to any signal it returns the signal. *)
Theorem moving_average_identity (fs : Q) (kw : kwargs) (x : list Q) :
  (int (get (window_size kw) 5%Q) <= 1)%Z ->
  exists b a y,
    create_system butter fs "Moving Average" kw = Ok (b, a) /\
    apply_system b a x = Ok y /\
    Forall2 Qeq y x.
Proof.
  intros Hw. exists [1 / 1], [1.0], (lfilter_out [1 / 1] [1.0] x (length x)).
  split; [| split].
  - unfold create_system. cbn [String.eqb Ascii.eqb Bool.eqb].
    destruct (Z.ltb_spec (int (get (window_size kw) 5)) 1) as [H | H].
    + reflexivity.
    + replace (int (get (window_size kw) 5)) with 1%Z by lia. reflexivity.
  - unfold apply_system. destruct x as [| x0 x]; [reflexivity |].
    cbn [length Nat.eqb]. apply lfilter_ok; discriminate.
  - assert (Hn : forall n, (n < length x)%nat ->
              nth n (lfilter_out [1 / 1] [1.0] x (length x)) 0 == nth n x 0).
    { intros n Hn. rewrite nth_lfilter_out by exact Hn.
      unfold taps, tap. cbn [length Nat.sub seq map fold_right nth Nat.leb].
      rewrite Nat.sub_0_r. field. }
    pose proof (lfilter_out_length [1 / 1] [1.0] x (length x)) as Hlen.
    revert Hn Hlen. generalize (lfilter_out [1 / 1] [1.0] x (length x)) as y.
    clear. induction x as [| x0 x IH]; intros [| y0 y] Hn Hlen;
      try discriminate; constructor.
    + apply (Hn 0%nat). simpl. lia.
    + apply IH; [| simpl in Hlen; lia].
      intros n Hlt. apply (Hn (S n)). simpl. lia.
Qed.

End Composition.

Section MoreResponses.
Import Py SystemAnalyzer.
Variable freqz : list Q -> list Q -> Z -> Q -> result (list Q * list complex).
Local Open Scope Q_scope.
Local Open Scope list_scope.

Lemma nth_nan_to_num (h : list complex) (i : nat) :
  (i < length h)%nat ->
  nth i (nan_to_num h) czero
  = (nan_to_num1 (fst (nth i h czero)), nan_to_num1 (snd (nth i h czero))).
Proof.
  revert i. induction h as [| z h IH]; intros [| i] Hi; simpl in Hi; try lia.
  - reflexivity.
  - cbn [nan_to_num map nth]. apply IH. lia.
Qed.

(** X13.  [frequency_response] never returns a sample that is not finite.
    When [freqz] succeeds, the grid is the one of [freqz], a sample whose
    two parts are finite is returned unchanged, and a part that is not
    finite is replaced by 0 on its own: the other part of that sample is
    kept. *)
Theorem frequency_response_finite (fs : Q) (b a : list Q) (n_points : Z)
  (w : list Q) (h : list complex) :
  frequency_response freqz fs b a n_points = Ok (w, h) ->
  Forall (fun z => exists re im, z = (Finite re, Finite im)) h /\
  forall w0 h0,
    freqz b a n_points fs = Ok (w0, h0) ->
    w = w0 /\ length h = length h0 /\
    forall i, (i < length h0)%nat ->
      (forall re, fst (nth i h0 czero) = Finite re ->
                  fst (nth i h czero) = Finite re) /\
      (forall im, snd (nth i h0 czero) = Finite im ->
                  snd (nth i h czero) = Finite im) /\
      ((forall re, fst (nth i h0 czero) <> Finite re) ->
       fst (nth i h czero) = Finite 0.0) /\
      ((forall im, snd (nth i h0 czero) <> Finite im) ->
       snd (nth i h czero) = Finite 0.0).
Proof.
  unfold frequency_response.
  assert (Hfin : forall l, Forall (fun z => exists re im, z = (Finite re, Finite im))
                                  (nan_to_num l)).
  { intros l. apply Forall_forall. intros z Hz. apply in_map_iff in Hz.
    destruct Hz as ([r i] & <- & _). cbn [fst snd].
    destruct r, i; cbn [nan_to_num1]; eexists; eexists; reflexivity. }
  destruct (freqz b a n_points fs) as [[w0 h0] | e]; cbn [bind try_except].
  - intros [= <- <-]. split; [apply Hfin |].
    intros w1 h1 [= <- <-]. split; [reflexivity |].
    split; [apply length_map |].
    intros i Hi. rewrite nth_nan_to_num by exact Hi. cbn [fst snd].
    repeat split.
    + intros re ->. reflexivity.
    + intros im ->. reflexivity.
    + intros Hn. destruct (fst (nth i h0 czero)) as [q | | |]; try reflexivity.
      exfalso. apply (Hn q). reflexivity.
    + intros Hn. destruct (snd (nth i h0 czero)) as [q | | |]; try reflexivity.
      exfalso. apply (Hn q). reflexivity.
  - destruct (linspace 0 (fs / 2) (n_points / 2 + 1) true) as [w1 |];
      cbn [bind]; [| discriminate].
    intros [= <- <-]. split; [| intros w0 h0; discriminate].
    apply Forall_forall. intros z Hz. apply in_map_iff in Hz.
    destruct Hz as (q & <- & _). eexists; eexists; reflexivity.
Qed.

End MoreResponses.

Section SetParameters.
Import Py SignalGenerator.
Local Open Scope Q_scope.
Local Open Scope list_scope.

Lemma set_parameters_merge (self : state) (new_fs new_duration : option Q) :
  let fs' := get new_fs (fs self) in
  let duration' := get new_duration (duration self) in
  set_parameters self new_fs new_duration
  = match linspace 0 duration' (int (fs' * duration')) false with
    | Ok t' => ({| fs := fs'; duration := duration'; t := t' |}, Ok tt)
    | Raise e => ({| fs := fs'; duration := duration'; t := t self |}, Raise e)
    end.
Proof.
  destruct self as [f d tv].
  destruct new_fs, new_duration; reflexivity.
Qed.

(** X14.  [set_parameters] assigns the two parameters first: whether or
    not the call succeeds, the generator afterwards holds the merged
    parameters, each one the given value or else the old one.  The call
    succeeds exactly when [int(fs * duration)] is not negative; then the
    generator is the one a fresh construction with the merged parameters
    gives, with [int(fs * duration)] sample times [i * duration / n].
    When [int(fs * duration)] is negative the call raises, and the
    generator keeps its old time vector beside the new parameters, where
    a fresh construction fails. *)
Theorem set_parameters_state (self : state) (new_fs new_duration : option Q) :
  let fs' := get new_fs (fs self) in
  let duration' := get new_duration (duration self) in
  let n := int (fs' * duration') in
  let after := fst (set_parameters self new_fs new_duration) in
  let outcome := snd (set_parameters self new_fs new_duration) in
  (fs after = fs' /\ duration after = duration') /\
  ((0 <= n)%Z ->
   outcome = Ok tt /\
   init fs' duration' = Ok after /\
   length (t after) = Z.to_nat n /\
   forall i, (i < Z.to_nat n)%nat ->
     nth i (t after) 0 == of_nat i * (duration' / inject_Z n)) /\
  ((n < 0)%Z ->
   (exists e, outcome = Raise e) /\
   t after = t self /\
   exists e, init fs' duration' = Raise e).
Proof.
  intros fs' duration' n after outcome.
  subst after outcome n fs' duration'.
  rewrite set_parameters_merge. cbv zeta. unfold init.
  destruct (linspace 0 _ _ false) as [t' | e] eqn:Hlin;
    cbn [fst snd fs duration t bind]; (split; [split; reflexivity |]).
  - destruct (linspace_open_length _ _ _ Hlin) as [Hn Hlen].
    split; [| intros H; lia].
    intros _. split; [reflexivity |]. split; [reflexivity |].
    split; [exact Hlen |].
    intros i Hi. apply (linspace_open_nth _ _ _ _ Hlin Hi).
  - split.
    + intros Hn. exfalso. revert Hlin. unfold linspace.
      destruct (Z.ltb_spec (int (get new_fs (fs self)
                                 * get new_duration (duration self))) 0);
        [lia | discriminate].
    + intros _. split; [exists e; reflexivity |].
      split; [reflexivity | exists e; reflexivity].
Qed.

(** The generator of [SignalGenerator(10, 0.25)] has two sample times.
    Raising the rate to 20 gives five; a negative rate raises and leaves
    the rate -4 beside the two old sample times. *)
Example set_parameters_faster :
  snd (set_parameters MoreExamples.quarter_second (Some 20) None) = Ok tt /\
  length (t (fst (set_parameters MoreExamples.quarter_second (Some 20) None)))
  = 5%nat.
Proof. split; reflexivity. Qed.

Example set_parameters_negative_rate :
  (exists e,
     snd (set_parameters MoreExamples.quarter_second (Some (- 4)) None)
     = Raise e) /\
  fst (set_parameters MoreExamples.quarter_second (Some (- 4)) None)
  = {| fs := - 4; duration := 0.25;
       t := t MoreExamples.quarter_second |}.
Proof. split; [eexists |]; reflexivity. Qed.

End SetParameters.

(** * Further properties: the Laplace evaluator *)

Section LaplaceFacts.
Import Py ZTransform.
Local Open Scope Q_scope.
Local Open Scope list_scope.

Lemma cmul_zero (z w : complex) :
  is_zero (cmul z w) = true <-> is_zero z = true \/ is_zero w = true.
Proof.
  rewrite !is_zero_iff. destruct z as [a b], w as [c d].
  unfold ceq, cmul, c0. cbn [fst snd]. split.
  - intros [H1 H2].
    assert (Hc : (a * a + b * b) * c == 0).
    { assert (H : (a * a + b * b) * c
                   == a * (a * c - b * d) + b * (a * d + b * c)) by ring.
      rewrite H, H1, H2. ring. }
    assert (Hd : (a * a + b * b) * d == 0).
    { assert (H : (a * a + b * b) * d
                   == a * (a * d + b * c) - b * (a * c - b * d)) by ring.
      rewrite H, H1, H2. ring. }
    apply Qmult_integral in Hc, Hd.
    destruct Hc as [Hn | Hc].
    + left. assert (Ha : a * a == 0) by nra. assert (Hb : b * b == 0) by nra.
      apply Qmult_integral in Ha, Hb. split; tauto.
    + destruct Hd as [Hn | Hd].
      * left. assert (Ha : a * a == 0) by nra. assert (Hb : b * b == 0) by nra.
        apply Qmult_integral in Ha, Hb. split; tauto.
      * right. split; assumption.
  - intros [[Ha Hb] | [Hc Hd]].
    + rewrite Ha, Hb. split; ring.
    + rewrite Hc, Hd. split; ring.
Qed.

Lemma csub_zero (s p : complex) :
  is_zero (LaplaceTransform.csub s p) = true <-> ceq s p.
Proof.
  rewrite is_zero_iff. unfold ceq, LaplaceTransform.csub, c0. cbn [fst snd].
  split; intros [H1 H2]; split; lra.
Qed.

(** A product of factors [s - r] vanishes exactly when its first factor
    does or [s] is one of the roots. *)
Lemma product_zero (s : complex) (roots : list complex) :
  forall start,
    is_zero (fold_left (fun acc r => cmul acc (LaplaceTransform.csub s r))
                       roots start) = true
    <-> is_zero start = true \/ Exists (fun r => ceq s r) roots.
Proof.
  induction roots as [| r roots IH]; intros start; cbn [fold_left].
  - split; [tauto |]. intros [H | H]; [exact H | inversion H].
  - rewrite IH, cmul_zero, csub_zero. split.
    + intros [[H | H] | H]; auto.
    + intros [H | H]; [tauto |]. inversion H; subst; auto.
Qed.

(** X15.  [LaplaceTransform.evaluate] raises, with a division by zero, exactly
    when [s] is one of the poles.  Anywhere else it returns a value, and
    that value is zero when [s] is one of the zeros or the gain is
    zero. *)
Theorem laplace_evaluate_poles_zeros (s : complex) (poles zeros : list complex)
  (gain : Q) :
  (Exists (fun p => ceq s p) poles ->
   LaplaceTransform.evaluate s poles zeros gain = Raise ZeroDivisionError) /\
  (~ Exists (fun p => ceq s p) poles ->
   exists H,
     LaplaceTransform.evaluate s poles zeros gain = Ok H /\
     (Exists (fun z => ceq s z) zeros \/ gain == 0 -> ceq H c0)).
Proof.
  unfold LaplaceTransform.evaluate. split.
  - intros Hp.
    assert (H : is_zero (fold_left (fun d p => cmul d (LaplaceTransform.csub s p))
                                   poles (1.0, 0)) = true)
      by (apply product_zero; right; exact Hp).
    rewrite H. reflexivity.
  - intros Hp.
    destruct (is_zero (fold_left (fun d p => cmul d (LaplaceTransform.csub s p))
                                 poles (1.0, 0))) eqn:E.
    + apply product_zero in E. destruct E as [E | E]; [discriminate | contradiction].
    + eexists. split; [reflexivity |]. intros Hz.
      assert (Hn : is_zero (fold_left
                              (fun n z => cmul n (LaplaceTransform.csub s z))
                              zeros (gain, 0)) = true).
      { apply product_zero. destruct Hz as [Hz | Hg]; [right; exact Hz |].
        left. apply is_zero_iff. split; [exact Hg | reflexivity]. }
      apply is_zero_iff. apply cmul_zero. left. exact Hn.
Qed.

End LaplaceFacts.

(** * Further properties: the signal utilities *)

Section UtilsFacts.
Import Py.
Local Open Scope Q_scope.
Local Open Scope string_scope.
Local Open Scope list_scope.

Lemma diff_positive (t : list Q) :
  (forall i, (S i < length t)%nat -> nth i t 0 < nth (S i) t 0) ->
  forallb (fun d => Qltb 0 d) (Utils.diff t) = true.
Proof.
  induction t as [| t0 t IH]; intros H; [reflexivity |].
  destruct t as [| t1 t]; [reflexivity |].
  cbn [Utils.diff forallb]. apply andb_true_iff. split.
  - apply Qltb_lt. specialize (H 0%nat). cbn [nth length] in H.
    assert (H' : t0 < t1) by (apply H; lia). lra.
  - apply IH. intros i Hi. apply (H (S i)). simpl in *. lia.
Qed.

(** Sample times built by a generator with positive parameters increase
    strictly. *)
Lemma init_increasing (fs duration : Q) (g : SignalGenerator.state) :
  0 < fs -> 0 < duration -> SignalGenerator.init fs duration = Ok g ->
  forall i, (S i < length (SignalGenerator.t g))%nat ->
    nth i (SignalGenerator.t g) 0 < nth (S i) (SignalGenerator.t g) 0.
Proof.
  intros Hfs Hd. unfold SignalGenerator.init.
  destruct (linspace 0 duration (int (fs * duration)) false) as [tv | e] eqn:Hl;
    cbn [bind]; [| discriminate].
  intros [= <-] i Hi. cbn [SignalGenerator.t] in *.
  destruct (linspace_open_length _ _ _ Hl) as [Hn Hlen]. rewrite Hlen in Hi.
  rewrite (linspace_open_nth _ _ _ i Hl) by lia.
  rewrite (linspace_open_nth _ _ _ (S i) Hl) by exact Hi.
  rewrite of_nat_S.
  assert (Hstep : 0 < duration / inject_Z (int (fs * duration))).
  { apply Qlt_shift_div_l; [| lra].
    change 0 with (inject_Z 0). rewrite <- Zlt_Qlt. lia. }
  lra.
Qed.

(** [validate_signal] rejects a signal whose lengths differ, whatever
    the samples, and one that holds a sample that is not finite. *)
Theorem validate_signal_rejects (t : list Q) (x : list SystemAnalyzer.float) :
  (length t <> length x -> Utils.validate_signal t x = false) /\
  (Exists (fun v => forall q, v <> SystemAnalyzer.Finite q) x ->
   Utils.validate_signal t x = false) /\
  ((exists i, (S i < length t)%nat /\ nth (S i) t 0 <= nth i t 0) ->
   Utils.validate_signal t x = false).
Proof.
  unfold Utils.validate_signal. split; [| split].
  - intros H. apply Nat.eqb_neq in H. rewrite H. reflexivity.
  - intros H. destruct (length t =? length x)%nat; [| reflexivity]. cbn [negb].
    assert (Hf : forallb Utils.isfinite x = false).
    { induction H as [v x Hv | v x _ IH]; cbn [forallb].
      - destruct v as [q | | |]; [exfalso; apply (Hv q); reflexivity | | |];
          reflexivity.
      - rewrite IH. apply andb_false_r. }
    rewrite Hf. reflexivity.
  - intros (i & Hi & Hle).
    destruct (negb (length t =? length x)%nat); [reflexivity |].
    destruct (negb (forallb Utils.isfinite x)); [reflexivity |].
    assert (Hf : forallb (fun d => Qltb 0 d) (Utils.diff t) = false).
    { revert i Hi Hle. induction t as [| t0 t IH]; intros i Hi Hle;
        [simpl in Hi; lia |].
      destruct t as [| t1 t]; [simpl in Hi; lia |].
      change (Utils.diff (t0 :: t1 :: t))
        with ((t1 - t0) :: Utils.diff (t1 :: t)).
      cbn [forallb]. destruct i as [| i].
      - cbn [nth] in Hle.
        assert (Hq : Qltb 0 (t1 - t0) = false) by (apply Qltb_ge; lra).
        rewrite Hq. reflexivity.
      - rewrite (IH i); [apply andb_false_r | simpl in *; lia | exact Hle]. }
    rewrite Hf. reflexivity.
Qed.

(** X16.  Against the time vector of a generator built with a positive
    sampling rate and a positive duration the test of [validate_signal]
    on the sample times always passes: a signal is accepted exactly when
    it has as many samples as the time vector and every sample is
    finite.  Against the time vector of a generator built with a
    negative rate and a negative duration that holds at least two sample
    times, every signal is rejected. *)
Theorem validate_against_generator (fs duration : Q)
  (g : SignalGenerator.state) (x : list SystemAnalyzer.float) :
  SignalGenerator.init fs duration = Ok g ->
  (0 < fs -> 0 < duration ->
   Utils.validate_signal (SignalGenerator.t g) x
   = (length (SignalGenerator.t g) =? length x)%nat
     && forallb Utils.isfinite x) /\
  (fs < 0 -> duration < 0 -> (2 <= int (fs * duration))%Z ->
   Utils.validate_signal (SignalGenerator.t g) x = false).
Proof.
  intros Hg. split.
  - intros Hfs Hd. unfold Utils.validate_signal.
    rewrite (diff_positive _ (init_increasing fs duration g Hfs Hd Hg)).
    destruct (length (SignalGenerator.t g) =? length x)%nat; [| reflexivity].
    destruct (forallb Utils.isfinite x); reflexivity.
  - intros Hfs Hd Hn.
    apply (proj2 (proj2 (validate_signal_rejects (SignalGenerator.t g) x))).
    revert Hg. unfold SignalGenerator.init.
    destruct (linspace 0 duration (int (fs * duration)) false)
      as [tv | e] eqn:Hl; cbn [bind]; [| discriminate].
    intros [= <-]. cbn [SignalGenerator.t].
    destruct (linspace_open_length _ _ _ Hl) as [_ Hlen].
    exists 0%nat. split; [lia |].
    rewrite (linspace_open_nth _ _ _ 0%nat Hl) by lia.
    rewrite (linspace_open_nth _ _ _ 1%nat Hl) by lia.
    assert (Hstep : duration / inject_Z (int (fs * duration)) < 0).
    { assert (Hpos : 0 < inject_Z (int (fs * duration))).
      { change 0 with (inject_Z 0). rewrite <- Zlt_Qlt. lia. }
      apply Qlt_shift_div_r; [exact Hpos | lra]. }
    rewrite of_nat_S. change (of_nat 0) with 0.
    set (d := duration / inject_Z (int (fs * duration))) in *. lra.
Qed.

(** [SignalGenerator(-10, -0.25)] has the sample times 0 and -0.125, and
    no signal validates against them. *)
Example validate_decreasing_times :
  exists g,
    SignalGenerator.init (- 10) (- 0.25) = Ok g /\
    length (SignalGenerator.t g) = 2%nat /\
    Utils.validate_signal (SignalGenerator.t g)
      [SystemAnalyzer.Finite 1; SystemAnalyzer.Finite 1] = false.
Proof. eexists. split; [reflexivity |]. split; reflexivity. Qed.

End UtilsFacts.

Section NormalizeFacts.
Import Py.
Local Open Scope Q_scope.
Local Open Scope list_scope.

Lemma fold_max_spec (l : list Q) :
  forall m0,
    let m := fold_left (fun m v => if Qltb m v then v else m) l m0 in
    m0 <= m /\ (forall v, In v l -> v <= m) /\ (m = m0 \/ In m l).
Proof.
  induction l as [| v l IH]; intros m0; cbn [fold_left].
  - split; [lra |]. split; [intros v [] | left; reflexivity].
  - destruct (Qltb m0 v) eqn:E.
    + apply Qltb_lt in E. destruct (IH v) as (H1 & H2 & H3).
      split; [lra |]. split.
      * intros u [<- | Hu]; [exact H1 | apply H2; exact Hu].
      * right. destruct H3 as [-> | H3]; [left; reflexivity | right; exact H3].
    + apply Qltb_ge in E. destruct (IH m0) as (H1 & H2 & H3).
      split; [exact H1 |]. split.
      * intros u [<- | Hu]; [lra | apply H2; exact Hu].
      * destruct H3 as [H3 | H3]; [left; exact H3 | right; right; exact H3].
Qed.

(** [np.max] returns an entry of the array that bounds all of them. *)
Lemma amax_spec (x : list Q) :
  x <> [] ->
  exists m, Utils.amax x = Ok m /\ In m x /\ forall v, In v x -> v <= m.
Proof.
  destruct x as [| x0 x]; [congruence | intros _].
  eexists. split; [reflexivity |].
  destruct (fold_max_spec x x0) as (H1 & H2 & H3). split.
  - destruct H3 as [-> | H3]; [left; reflexivity | right; exact H3].
  - intros v [<- | Hv]; [exact H1 | apply H2; exact Hv].
Qed.

(** X17.  [normalize_signal] refuses the empty array.  On any other array it
    returns as many samples, all within [-1, 1]; an array of zeros is
    returned as it is, and otherwise each sample is divided by the
    greatest magnitude, so that some sample of the result has magnitude
    1. *)
Theorem normalize_signal_range (x : list Q) :
  (x = [] -> exists e, Utils.normalize_signal x = Raise e) /\
  (x <> [] ->
   exists y,
     Utils.normalize_signal x = Ok y /\
     length y = length x /\
     Forall (fun v => - 1 <= v <= 1) y /\
     (Forall (fun v => v == 0) x -> y = x) /\
     (~ Forall (fun v => v == 0) x -> Exists (fun v => Qabs v == 1) y)).
Proof.
  split.
  - intros ->. eexists. reflexivity.
  - intros Hx.
    assert (Hax : map Qabs x <> []) by (destruct x; [congruence | discriminate]).
    destruct (amax_spec _ Hax) as (m & Hm & Hin & Hle).
    unfold Utils.normalize_signal. rewrite Hm. cbn [bind].
    assert (Hbound : forall v, In v x -> Qabs v <= m)
      by (intros v Hv; apply Hle; apply in_map; exact Hv).
    apply in_map_iff in Hin. destruct Hin as (vm & Hvm & Hvin).
    assert (Hm0 : 0 <= m) by (rewrite <- Hvm; apply Qabs_nonneg).
    destruct (Qeq_bool m 0) eqn:E.
    + apply Qeq_bool_iff in E. exists x. split; [reflexivity |].
      split; [reflexivity |].
      assert (Hall : Forall (fun v => v == 0) x).
      { apply Forall_forall. intros v Hv. specialize (Hbound v Hv).
        rewrite E in Hbound. apply Qabs_Qle_condition in Hbound. lra. }
      split; [| split].
      * apply Forall_forall. intros v Hv.
        rewrite Forall_forall in Hall. rewrite (Hall v Hv). split; discriminate.
      * reflexivity.
      * intros Hn. contradiction.
    + apply Qeq_bool_neq in E. assert (Hmp : 0 < m) by lra.
      exists (map (fun v => v / m) x). split; [reflexivity |].
      split; [apply length_map |]. split; [| split].
      * apply Forall_forall. intros u Hu. apply in_map_iff in Hu.
        destruct Hu as (v & <- & Hv). specialize (Hbound v Hv).
        apply Qabs_Qle_condition in Hbound. split.
        -- apply Qle_shift_div_l; [exact Hmp | lra].
        -- apply Qle_shift_div_r; [exact Hmp | lra].
      * intros Hall. exfalso. rewrite Forall_forall in Hall.
        assert (H0 : Qabs vm == 0) by (rewrite (Hall vm Hvin); reflexivity).
        rewrite Hvm in H0. contradiction.
      * intros _. apply Exists_exists. exists (vm / m). split.
        -- apply in_map_iff. exists vm. split; [reflexivity | exact Hvin].
        -- unfold Qdiv. rewrite Qabs_Qmult, Hvm.
           rewrite (Qabs_pos (/ m)) by (apply Qlt_le_weak, Qinv_lt_0_compat; exact Hmp).
           field. lra.
Qed.

(** X18.  Normalizing twice changes nothing more: a normalized signal is its
    own normalization, up to the equality of rationals. *)
Theorem normalize_signal_idempotent (x : list Q) :
  x <> [] ->
  exists y y',
    Utils.normalize_signal x = Ok y /\
    Utils.normalize_signal y = Ok y' /\
    Forall2 Qeq y' y.
Proof.
  intros Hx.
  assert (Hrefl : forall l : list Q, Forall2 Qeq l l)
    by (induction l; constructor; [reflexivity | assumption]).
  assert (Hax : map Qabs x <> []) by (destruct x; [congruence | discriminate]).
  destruct (amax_spec _ Hax) as (m & Hm & Hin & Hle).
  assert (Hbound : forall v, In v x -> Qabs v <= m)
    by (intros v Hv; apply Hle; apply in_map; exact Hv).
  apply in_map_iff in Hin. destruct Hin as (vm & Hvm & Hvin).
  assert (Hnx : Utils.normalize_signal x
                = if Qeq_bool m 0 then Ok x else Ok (map (fun v => v / m) x)).
  { unfold Utils.normalize_signal. rewrite Hm. reflexivity. }
  destruct (Qeq_bool m 0) eqn:E.
  - exists x, x. split; [exact Hnx |]. split; [exact Hnx | apply Hrefl].
  - apply Qeq_bool_neq in E.
    assert (Hm0 : 0 <= m) by (rewrite <- Hvm; apply Qabs_nonneg).
    assert (Hmp : 0 < m) by lra.
    set (y := map (fun v => v / m) x).
    assert (Hy : map Qabs y <> [])
      by (unfold y; destruct x; [congruence | discriminate]).
    destruct (amax_spec _ Hy) as (m' & Hm' & Hin' & Hle').
    assert (Habs : forall v, Qabs (v / m) == Qabs v / m).
    { intros v. unfold Qdiv. rewrite Qabs_Qmult.
      rewrite (Qabs_pos (/ m)) by (apply Qlt_le_weak, Qinv_lt_0_compat; exact Hmp).
      reflexivity. }
    assert (Hone : m' == 1).
    { apply Qle_antisym.
      - apply in_map_iff in Hin'. destruct Hin' as (u & <- & Hu).
        unfold y in Hu. apply in_map_iff in Hu. destruct Hu as (v & <- & Hv).
        rewrite Habs. apply Qle_shift_div_r; [exact Hmp |].
        specialize (Hbound v Hv). lra.
      - assert (H1 : Qabs (vm / m) <= m').
        { apply Hle'. apply in_map. unfold y.
          apply (in_map (fun v => v / m)). exact Hvin. }
        rewrite Habs, Hvm in H1.
        assert (H2 : m / m == 1) by (field; lra). lra. }
    exists y, (map (fun v => v / m') y). split; [exact Hnx |]. split.
    + unfold Utils.normalize_signal. rewrite Hm'. cbn [bind].
      destruct (Qeq_bool m' 0) eqn:E'; [| reflexivity].
      apply Qeq_bool_iff in E'. lra.
    + clear - Hone. induction y as [| v y IH]; constructor; [| exact IH].
      rewrite Hone. field.
Qed.

End NormalizeFacts.

Section SnrFacts.
Import Py.
Variable log10 : Q -> Q.
Local Open Scope Q_scope.
Local Open Scope list_scope.

Lemma sum_squares_zero (x : list Q) :
  0 <= fold_right Qplus 0 (map (fun v => v ^ 2) x) /\
  (fold_right Qplus 0 (map (fun v => v ^ 2) x) == 0
   <-> Forall (fun v => v == 0) x).
Proof.
  induction x as [| v x [IH0 IH]]; cbn [map fold_right].
  - split; [lra |]. split; [constructor | reflexivity].
  - assert (Hv : 0 <= v ^ 2) by (simpl; nra). split; [lra |]. split.
    + intros H. assert (Hv0 : v ^ 2 == 0) by lra.
      constructor.
      * simpl in Hv0. apply Qmult_integral in Hv0. tauto.
      * apply IH. lra.
    + intros H. inversion H as [| ? ? Hv0 Hx]; subst.
      apply IH in Hx. rewrite Hx, Hv0. reflexivity.
Qed.

(** X19.  When the noise array is not empty and all its samples are zero,
    [calculate_snr] returns plus infinity whatever the signal, an empty
    or an all-zero signal included: the signal power is computed and
    not used.
    With an empty noise array it returns NaN whatever the signal. *)
Theorem calculate_snr_silent_noise (signal noise : list Q) :
  (noise <> [] -> Forall (fun v => v == 0) noise ->
   Utils.calculate_snr log10 signal noise = SystemAnalyzer.PosInf) /\
  (noise = [] -> Utils.calculate_snr log10 signal noise = SystemAnalyzer.NaN).
Proof.
  split; [| intros ->; reflexivity].
  intros Hne Hzero. unfold Utils.calculate_snr, Utils.mean.
  destruct noise as [| n0 noise]; [congruence |]. cbn [map].
  apply (proj2 (sum_squares_zero (n0 :: noise))) in Hzero.
  cbn [map] in Hzero.
  assert (E : Qeq_bool
                (fold_right Qplus 0 (n0 ^ 2 :: map (fun v => v ^ 2) noise)
                 / of_nat (length (n0 ^ 2 :: map (fun v => v ^ 2) noise))) 0
              = true).
  { apply Qeq_bool_iff. rewrite Hzero. unfold Qdiv. ring. }
  rewrite E. reflexivity.
Qed.

(** Two silent noise samples give plus infinity for a signal, for the
    all-zero signal and for the empty one. *)
Example calculate_snr_silent_examples :
  Utils.calculate_snr log10 [1; 2] [0; 0] = SystemAnalyzer.PosInf /\
  Utils.calculate_snr log10 [0; 0] [0; 0] = SystemAnalyzer.PosInf /\
  Utils.calculate_snr log10 [] [0; 0] = SystemAnalyzer.PosInf.
Proof. repeat split. Qed.

End SnrFacts.

(** * Further properties: runs on concrete inputs *)

Section MoreWitnesses.
Import Py SystemAnalyzer Examples MoreExamples.
Local Open Scope Q_scope.
Local Open Scope string_scope.
Local Open Scope list_scope.

Lemma butterworth_cutoff_witness :
  0 < 1000 /\
  exists wn,
    create_system echo_butter 1000 "High-pass Filter" SystemAnalyzer.no_kwargs
    = echo_butter 4 [wn] high /\ 0 < wn < 1.
Proof.
  assert (H : 0 < 1000) by reflexivity.
  split; [exact H |].
  destruct (butterworth_cutoff echo_butter 1000 SystemAnalyzer.no_kwargs H)
    as [(wn & Hc & Hr) _].
  exists wn. split; [exact Hc | exact Hr].
Defined.

Lemma band_pass_normalized_witness :
  0 < 1000 /\
  exists wl wh,
    create_system echo_butter 1000 "Band-pass Filter" (band_kwargs 50 10)
    = echo_butter 4 [wl; wh] band /\ 0 < wl < wh.
Proof.
  assert (H : 0 < 1000) by reflexivity.
  split; [exact H |].
  destruct (band_pass_normalized echo_butter 1000 (band_kwargs 50 10) H)
    as (wl & wh & Hc & Hr & _).
  exists wl, wh. split; [exact Hc | exact Hr].
Defined.

Lemma constructed_system_applies_witness :
  In "Custom System"
     ["Moving Average"; "Differentiator"; "Integrator"; "Custom System"] /\
  create_system echo_butter 1000 "Custom System" (denominator_kwargs [0; 1])
  = Ok ([1], [1]) /\
  exists y, apply_system [1] [1] [3; 4; 5] = Ok y /\ length y = 3%nat.
Proof.
  assert (H1 : In "Custom System"
                  ["Moving Average"; "Differentiator"; "Integrator";
                   "Custom System"])
    by (right; right; right; left; reflexivity).
  assert (H2 : create_system echo_butter 1000 "Custom System"
                 (denominator_kwargs [0; 1]) = Ok ([1], [1])) by reflexivity.
  split; [exact H1 |]. split; [exact H2 |].
  destruct (constructed_system_applies echo_butter 1000 "Custom System"
              (denominator_kwargs [0; 1]) [1] [1] H1 H2) as (_ & _ & _ & H).
  exact (H [3; 4; 5]).
Defined.

Lemma moving_average_identity_witness :
  (int (get (window_size (window_kwargs 0.5%Q)) 5%Q) <= 1)%Z /\
  exists b a y,
    create_system echo_butter 1000 "Moving Average" (window_kwargs 0.5)
    = Ok (b, a) /\
    apply_system b a [3; 4; 5] = Ok y /\ Forall2 Qeq y [3; 4; 5].
Proof.
  assert (H : (int (get (window_size (window_kwargs 0.5%Q)) 5%Q) <= 1)%Z)
    by (intros Hc; discriminate Hc).
  split; [exact H |].
  exact (moving_average_identity echo_butter 1000 (window_kwargs 0.5)
           [3; 4; 5] H).
Defined.

Lemma fir_impulse_response_witness :
  (2 <= length [1; 2]%Q)%nat /\ ~ 4 == 0 /\ [0; 1; 2] <> [] /\
  exists h,
    impulse_response failing_response 1000 [1; 2] [4] (Some [0; 1; 2])
    = Ok ([0; 1; 2], h) /\
    forall n, (n < 3)%nat -> nth n h 0 == nth n [1; 2] 0 / 4.
Proof.
  assert (H1 : (2 <= length [1; 2]%Q)%nat) by (simpl; lia).
  assert (H2 : ~ 4 == 0) by discriminate.
  assert (H3 : [0; 1; 2] <> []) by discriminate.
  split; [exact H1 |]. split; [exact H2 |]. split; [exact H3 |].
  destruct (fir_impulse_response failing_response 1000 4 [1; 2] [0; 1; 2]
              H1 H2 H3) as (h & Hh & _ & Hn).
  exists h. split; [exact Hh | exact Hn].
Defined.

Lemma step_is_running_sum_witness :
  (length [1; - 0.5]%Q < length [1; 1; 1]%Q)%nat /\ [1; - 0.5] <> [] /\
  ~ nth 0 [1; - 0.5] 0 == 0 /\ [0; 1; 2; 3] <> [] /\
  exists h s,
    impulse_response failing_response 1000 [1; 1; 1] [1; - 0.5]
      (Some [0; 1; 2; 3]) = Ok ([0; 1; 2; 3], h) /\
    step_response failing_response 1000 [1; 1; 1] [1; - 0.5]
      (Some [0; 1; 2; 3]) = Ok ([0; 1; 2; 3], s) /\
    forall n, (n < 4)%nat -> nth n s 0 == fold_right Qplus 0 (firstn (S n) h).
Proof.
  assert (H1 : (length [1; - 0.5]%Q < length [1; 1; 1]%Q)%nat) by (simpl; lia).
  assert (H2 : [1; - 0.5] <> []) by discriminate.
  assert (H3 : ~ nth 0 [1; - 0.5] 0 == 0) by discriminate.
  assert (H4 : [0; 1; 2; 3] <> []) by discriminate.
  split; [exact H1 |]. split; [exact H2 |]. split; [exact H3 |].
  split; [exact H4 |].
  destruct (step_is_running_sum failing_response failing_response 1000
              [1; 1; 1] [1; - 0.5] [0; 1; 2; 3] H1 H2 H3 H4)
    as (h & s & Hh & Hs & _ & _ & Hn).
  exists h, s. split; [exact Hh |]. split; [exact Hs | exact Hn].
Defined.

(** The run behind that witness: the impulse response 1, 1.5, 1.75,
    0.875 and its running sums 1, 2.5, 4.25, 5.125. *)
Example step_and_impulse_run :
  exists h s,
    impulse_response failing_response 1000 [1; 1; 1] [1; - 0.5]
      (Some [0; 1; 2; 3]) = Ok ([0; 1; 2; 3], h) /\
    step_response failing_response 1000 [1; 1; 1] [1; - 0.5]
      (Some [0; 1; 2; 3]) = Ok ([0; 1; 2; 3], s) /\
    Forall2 Qeq h [1; 1.5; 1.75; 0.875] /\
    Forall2 Qeq s [1; 2.5; 4.25; 5.125].
Proof.
  eexists. eexists. split; [reflexivity |]. split; [reflexivity |].
  split; repeat constructor.
Qed.

Lemma frequency_response_finite_witness :
  frequency_response freqz_with_pole 1000 [1] [1; - 1] 2
  = Ok ([0; 250], [(Finite 1, Finite 0); (Finite 0.0, Finite 2)]) /\
  Forall (fun z => exists re im, z = (Finite re, Finite im))
         [(Finite 1, Finite 0); (Finite 0.0, Finite 2)].
Proof.
  assert (H : frequency_response freqz_with_pole 1000 [1] [1; - 1] 2
              = Ok ([0; 250], [(Finite 1, Finite 0); (Finite 0.0, Finite 2)]))
    by reflexivity.
  split; [exact H |].
  exact (proj1 (frequency_response_finite freqz_with_pole 1000 [1] [1; - 1] 2
                  _ _ H)).
Defined.

Lemma validate_against_generator_witness :
  SignalGenerator.init 10 0.25 = Ok quarter_second /\
  Utils.validate_signal (SignalGenerator.t quarter_second) [Finite 1; PosInf]
  = (length (SignalGenerator.t quarter_second) =? 2)%nat
    && forallb Utils.isfinite [Finite 1; PosInf].
Proof.
  assert (H : SignalGenerator.init 10 0.25 = Ok quarter_second)
    by reflexivity.
  split; [exact H |].
  apply (proj1 (validate_against_generator 10 0.25 quarter_second
                  [Finite 1; PosInf] H)); reflexivity.
Defined.

Lemma normalize_signal_idempotent_witness :
  [1; - 2] <> [] /\
  exists y y',
    Utils.normalize_signal [1; - 2] = Ok y /\
    Utils.normalize_signal y = Ok y' /\ Forall2 Qeq y' y.
Proof.
  assert (H : [1; - 2] <> []) by discriminate.
  split; [exact H |]. exact (normalize_signal_idempotent [1; - 2] H).
Defined.

End MoreWitnesses.

(** * Further properties: the frequency vector of [fft] *)

Section FrequencyBins.
Import Reals Lra.
Import Py FourierTransform.
Local Open Scope R_scope.
Local Open Scope list_scope.

(** X20.  The frequency vector that [fft] returns with the spectrum.  For a
    positive sampling rate it has one bin per sample; bin [k] is
    [k * fs / N] up to index [(N - 1) // 2] and [(k - N) * fs / N] after
    it, so the first bin is 0 and every bin lies in [-fs/2, fs/2). *)
Theorem fft_frequency_bins (x : list R) (fs : R) (freq : list R) (X : list C) :
  0 < fs -> fft x fs = Ok (freq, X) ->
  let N := length x in
  (0 < N)%nat /\ length freq = N /\ length X = N /\
  forall k, (k < N)%nat ->
    ((k <= (N - 1) / 2)%nat -> nth k freq 0 = INR k * fs / INR N) /\
    (((N - 1) / 2 < k)%nat -> nth k freq 0 = (INR k - INR N) * fs / INR N) /\
    - (fs / 2) <= nth k freq 0 < fs / 2.
Proof.
  intros Hfs Hfft N.
  assert (Hx : x <> []).
  { intros ->. discriminate Hfft. }
  assert (HN : (0 < N)%nat) by (unfold N; destruct x; [congruence | simpl; lia]).
  assert (HNr : 0 < INR N) by (apply lt_0_INR; exact HN).
  assert (Hval : fft x fs = Ok (fftfreq N (1 / fs), dft (map RtoC x))).
  { unfold fft, scipy_fft, truediv. fold N.
    destruct x as [| x0 x']; [congruence |]. cbn [map bind].
    destruct (Req_dec_T fs 0) as [E | _]; [lra | reflexivity]. }
  rewrite Hval in Hfft. injection Hfft as <- <-.
  split; [exact HN |].
  split; [unfold fftfreq; rewrite length_map, length_seq; reflexivity |].
  split; [unfold dft; rewrite length_map, length_seq, length_map; reflexivity |].
  intros k Hk.
  assert (Hnth : nth k (fftfreq N (1 / fs)) 0
                 = (if (k <=? (N - 1) / 2)%nat then INR k else INR k - INR N)
                   * (1 / (INR N * (1 / fs)))).
  { unfold fftfreq. rewrite nth_map_seq by exact Hk. reflexivity. }
  assert (Hscale : 1 / (INR N * (1 / fs)) = fs / INR N) by (field; lra).
  rewrite Hnth, Hscale.
  assert (Hdiv : (2 * ((N - 1) / 2) <= N - 1 < 2 * ((N - 1) / 2) + 2)%nat).
  { pose proof (Nat.div_mod_eq (N - 1) 2) as Hd.
    pose proof (Nat.mod_upper_bound (N - 1) 2) as Hm. lia. }
  pose proof (pos_INR k) as Hk0.
  destruct (Nat.leb_spec k ((N - 1) / 2)) as [Hle | Hgt].
  - split; [intros _; unfold Rdiv; ring |]. split; [intros H; lia |].
    assert (H2 : (2 * k < N)%nat) by lia.
    apply lt_INR in H2. rewrite mult_INR in H2. simpl in H2.
    assert (Hq : INR k * (fs / INR N) * INR N = INR k * fs) by (field; lra).
    split.
    + apply Rle_trans with 0; [lra |].
      apply Rmult_le_pos; [exact Hk0 |].
      apply Rlt_le. apply Rdiv_lt_0_compat; lra.
    + apply (Rmult_lt_reg_r (INR N)); [exact HNr |]. rewrite Hq. nra.
  - split; [intros H; lia |]. split; [intros _; unfold Rdiv; ring |].
    assert (H2 : (N <= 2 * k)%nat) by lia.
    apply le_INR in H2. rewrite mult_INR in H2. simpl in H2.
    apply lt_INR in Hk.
    assert (Hq : (INR k - INR N) * (fs / INR N) * INR N = (INR k - INR N) * fs)
      by (field; lra).
    split.
    + apply (Rmult_le_reg_r (INR N)); [exact HNr |]. rewrite Hq. nra.
    + apply (Rmult_lt_reg_r (INR N)); [exact HNr |]. rewrite Hq. nra.
Qed.

Lemma fft_frequency_bins_witness :
  0 < 1 /\
  exists freq X,
    fft [1; 2] 1 = Ok (freq, X) /\ length freq = 2%nat /\
    nth 0 freq 0 = INR 0 * 1 / INR 2.
Proof.
  assert (H : 0 < 1) by exact Rlt_0_1.
  split; [exact H |].
  assert (Hv : fft [1; 2] 1
               = Ok (fftfreq 2 (1 / 1), dft (map RtoC [1; 2]))).
  { unfold fft, truediv. cbn [map scipy_fft bind length].
    destruct (Req_dec_T 1 0) as [E | _]; [| reflexivity].
    exfalso. exact (R1_neq_R0 E). }
  exists (fftfreq 2 (1 / 1)), (dft (map RtoC [1; 2])).
  split; [exact Hv |].
  destruct (fft_frequency_bins [1; 2] 1 _ _ H Hv) as (_ & Hl & _ & Hk).
  split; [exact Hl |].
  destruct (Hk 0%nat (Nat.lt_0_succ 1)) as (H0 & _ & _).
  apply H0. apply Nat.le_0_l.
Defined.

End FrequencyBins.
